(** * ARHF: the doctest-driven generate / verify / refine loop

    A shallow embedding of the core of the ARHF tool:
    - [processes/function_parser.py]: [user_doctests_generator];
    - [processes/doctests.py]: [suggested_doctest_inputs_generator],
      [suggested_doctests_list_generator], [final_doctests_generator];
    - [LLM/LLM_Interface.py]: [test], [verified_code_gen] (and the
      interface of [repromt_llm]).

    Python values are restricted to the fragment the doctests of the tool
    are written in: [None], booleans, integers, strings, tuples and lists.
    Candidate functions are total and pure: a call returns a value or
    raises an [Exception] carrying a message.  The Python runtime ([exec],
    [eval], [int]) and the hosted language model are parameters. *)

From Stdlib Require Import ZArith Bool Ascii String List Lia.
From stdpp Require Import base option list strings pretty gmap fin_maps.
Import ListNotations.

Local Open Scope Z_scope.
Local Open Scope string_scope.
Local Open Scope list_scope.

(** ** Python values *)

#[warnings="-register-all"] Inductive value : Type :=
| VNone
| VBool (b : bool)
| VInt (n : Z)
| VStr (s : string)
| VTuple (xs : list value)
| VList (xs : list value).

(** The induction principle that descends into tuples and lists. *)
Section value_induction.
Variable P : value -> Prop.
Hypothesis HNone : P VNone.
Hypothesis HBool : forall b, P (VBool b).
Hypothesis HInt : forall n, P (VInt n).
Hypothesis HStr : forall s, P (VStr s).
Hypothesis HTuple : forall xs, Forall P xs -> P (VTuple xs).
Hypothesis HList : forall xs, Forall P xs -> P (VList xs).

Fixpoint value_nested_ind (v : value) : P v :=
  match v with
  | VNone => HNone
  | VBool b => HBool b
  | VInt n => HInt n
  | VStr s => HStr s
  | VTuple xs =>
      HTuple xs
        ((fix go (l : list value) : Forall P l :=
            match l with
            | [] => @List.Forall_nil _ P
            | x :: l' => @List.Forall_cons _ P x l' (value_nested_ind x) (go l')
            end) xs)
  | VList xs =>
      HList xs
        ((fix go (l : list value) : Forall P l :=
            match l with
            | [] => @List.Forall_nil _ P
            | x :: l' => @List.Forall_cons _ P x l' (value_nested_ind x) (go l')
            end) xs)
  end.
End value_induction.

(** [isinstance(v, tuple)] *)
Definition is_tuple (v : value) : bool :=
  match v with VTuple _ => true | _ => false end.

(** Element-wise comparison of two sequences, as Python compares tuples
    and lists: same length and pairwise [==]. *)
Fixpoint seq_eq (eq : value -> value -> bool) (xs ys : list value) : bool :=
  match xs, ys with
  | [], [] => true
  | x :: xs', y :: ys' => eq x y && seq_eq eq xs' ys'
  | _, _ => false
  end.

(** Python's [==].  [bool] is a subclass of [int]: [True == 1] and
    [False == 0]; a tuple never equals a list. *)
Fixpoint py_eq (a b : value) : bool :=
  match a, b with
  | VNone, VNone => true
  | VBool x, VBool y => Bool.eqb x y
  | VBool x, VInt n => (Z.b2z x =? n)%Z
  | VInt m, VBool y => (m =? Z.b2z y)%Z
  | VInt m, VInt n => (m =? n)%Z
  | VStr s, VStr t => String.eqb s t
  | VTuple xs, VTuple ys =>
      (fix go (l : list value) (ys : list value) : bool :=
         match l, ys with
         | [], [] => true
         | x :: l', y :: ys' => py_eq x y && go l' ys'
         | _, _ => false
         end) xs ys
  | VList xs, VList ys =>
      (fix go (l : list value) (ys : list value) : bool :=
         match l, ys with
         | [], [] => true
         | x :: l', y :: ys' => py_eq x y && go l' ys'
         | _, _ => false
         end) xs ys
  | _, _ => false
  end.

(** Python's [!=] on this fragment. *)
Definition py_ne (a b : value) : bool := negb (py_eq a b).

(** [x in l] for a list [l]: some element is [==] to [x]. *)
Definition py_in (x : value) (l : list value) : bool :=
  existsb (py_eq x) l.

(** The canonical representative of a value up to [==]: booleans become
    the integers they equal. *)
Fixpoint norm (v : value) : value :=
  match v with
  | VBool b => VInt (Z.b2z b)
  | VTuple xs => VTuple (List.map norm xs)
  | VList xs => VList (List.map norm xs)
  | _ => v
  end.

(** ** Doctests, exceptions and the Python runtime *)

(** A doctest is the Python pair [(input, output)]. *)
Definition doctest : Type := value * value.

(** What a call of a candidate function does. *)
Inductive outcome : Type :=
| Returned (v : value)
| Raised (msg : string).

(** A callable, applied to its positional arguments. *)
Definition pyfun : Type := list value -> outcome.

(** The namespace [exec] fills in: [env name] is [local_env.get(name)]
    when that is a callable, [None] otherwise. *)
Definition namespace : Type := string -> option pyfun.

(** What [eval(text)] does: a value, an [Exception], or an exception
    outside the [Exception] hierarchy (such as [SystemExit]). *)
Inductive eval_outcome : Type :=
| Evaluated (v : value)
| EvalException
| EvalExit.

(** Exceptions that leave a function of the tool. *)
Inductive exn : Type :=
| ExecError
| LLMError
| KeyError (key : string)
| ValueError (text : string)
| EvalError
| SystemExit.

Inductive result (A : Type) : Type :=
| Ok (a : A)
| Raise (e : exn).
Arguments Ok {A} a.
Arguments Raise {A} e.

#[global] Instance result_ret : MRet result := fun A a => Ok a.
#[global] Instance result_bind : MBind result := fun A B k m =>
  match m with
  | Ok a => k a
  | Raise e => Raise e
  end.

(** The interpreter the tool runs on. *)
Class PyRuntime : Type := {
  (** [exec(src, {})]: the namespace it defines, [None] when it raises *)
  py_exec : string -> option namespace;
  (** [eval(text)] *)
  py_eval : string -> eval_outcome;
  (** [int(text)], [None] when it raises [ValueError] *)
  py_int : string -> option Z;
  (** [str(e)] of the [TypeError] of calling a non-callable *)
  not_callable_msg : string;
  (** [str(e)] of the [TypeError] of unpacking a non-iterable with [*] *)
  not_iterable_msg : value -> string
}.

(** The one-character strings of a string, as iterating over it yields. *)
Definition chars (s : string) : list value :=
  List.map (fun c => VStr (String c EmptyString)) (list_ascii_of_string s).

(** The positional arguments [*x] unpacks to; [None] when [x] is not
    iterable. *)
Definition unpack (x : value) : option (list value) :=
  match x with
  | VTuple xs => Some xs
  | VList xs => Some xs
  | VStr s => Some (chars s)
  | _ => None
  end.

Section executor.
Context {rt : PyRuntime}.

(** [exec(function_code, local_env)]; [exec(None, ...)] raises. *)
Definition exec_code (function_code : option string) : option namespace :=
  match function_code with
  | Some src => py_exec src
  | None => None
  end.

Definition call (func : option pyfun) (args : list value) : outcome :=
  match func with
  | Some f => f args
  | None => Raised not_callable_msg
  end.

(** The arguments the callee is entered with, under each of the two
    calling conventions; [None] when unpacking raises first. *)
Definition arguments (spread : bool) (x : value) : option (list value) :=
  if spread then unpack x else Some [x].

(** [func(x)] when [spread] is false, [func( *x )] when it is true. *)
Definition invoke (spread : bool) (func : option pyfun) (x : value) : outcome :=
  match arguments spread x with
  | Some args => call func args
  | None => Raised (not_iterable_msg x)
  end.

(** The call a case leads to: the arguments the callee is entered with,
    when there is a callee and the unpacking has not raised. *)
Definition entered (spread : bool) (func : option pyfun) (x : value)
    : list (list value) :=
  match func, arguments spread x with
  | Some _, Some args => [args]
  | _, _ => []
  end.

(** The two lists [test] appends to, and the calls of the candidate it
    has made. *)
Record test_state : Type := {
  failed_doctests : list doctest;
  failed_doctests_results : list doctest;
  calls : list (list value)
}.

Definition test_start : test_state :=
  {| failed_doctests := []; failed_doctests_results := []; calls := [] |}.

(** One iteration of either [for doctest in doctests] loop of [test]. *)
Definition test_step (spread : bool) (func : option pyfun)
    (st : test_state) (d : doctest) : test_state :=
  let calls' := calls st ++ entered spread func (fst d) in
  match invoke spread func (fst d) with
  | Returned output =>
      if py_ne output (snd d) then
        {| failed_doctests := failed_doctests st ++ [d];
           failed_doctests_results :=
             failed_doctests_results st ++ [(fst d, output)];
           calls := calls' |}
      else
        {| failed_doctests := failed_doctests st;
           failed_doctests_results := failed_doctests_results st;
           calls := calls' |}
  | Raised _ =>
      {| failed_doctests := failed_doctests st ++ [d];
         failed_doctests_results :=
           failed_doctests_results st ++ [(fst d, VStr "Error")];
         calls := calls' |}
  end.

(** The body of [test]: the early return on [[]], the [exec], the
    choice of the loop by the first input, the loop. *)
Definition test_run (function_name : string) (function_code : option string)
    (doctests : list doctest) : result test_state :=
  match doctests with
  | [] => Ok test_start
  | first :: _ =>
      match exec_code function_code with
      | None => Raise ExecError
      | Some local_env =>
          let func := local_env function_name in
          if negb (is_tuple (fst first)) then
            Ok (fold_left (test_step false func) doctests test_start)
          else
            Ok (fold_left (test_step true func) doctests test_start)
      end
  end.

(** [test(function_name, function_code, doctests)] *)
Definition test (function_name : string) (function_code : option string)
    (doctests : list doctest) : result (list doctest * list doctest) :=
  st ← test_run function_name function_code doctests;
  mret (failed_doctests st, failed_doctests_results st).

(** The calls of the candidate that [test] makes, in order. *)
Definition test_calls (function_name : string) (function_code : option string)
    (doctests : list doctest) : result (list (list value)) :=
  st ← test_run function_name function_code doctests;
  mret (calls st).

(** *** The outcome of one case *)

Inductive ExecutionResult : Type :=
| Pass
| Fail (actual : value)
| Errored (summary : string).

Definition classify (spread : bool) (func : option pyfun) (d : doctest)
    : ExecutionResult :=
  match invoke spread func (fst d) with
  | Returned output => if py_eq output (snd d) then Pass else Fail output
  | Raised msg => Errored msg
  end.

Definition passes (r : ExecutionResult) : bool :=
  match r with Pass => true | _ => false end.

(** What the actual-results sequence shows for a case that did not pass. *)
Definition reported (r : ExecutionResult) : value :=
  match r with
  | Fail actual => actual
  | _ => VStr "Error"
  end.

Definition non_passing (spread : bool) (func : option pyfun)
    (doctests : list doctest) : list doctest :=
  List.filter (fun d => negb (passes (classify spread func d))) doctests.

(** The loop [test] takes: the spreading one exactly when the input of
    the first doctest is a tuple. *)
Definition convention (doctests : list doctest) : bool :=
  match doctests with
  | [] => false
  | first :: _ => is_tuple (fst first)
  end.

(** All inputs are tuples, or none is. *)
Definition uniform_shape (doctests : list doctest) : bool :=
  forallb (fun d => Bool.eqb (is_tuple (fst d)) (convention doctests))
    doctests.

(** The arguments an input stands for by its own shape: the components
    of a tuple, the value itself otherwise. *)
Definition own_arguments (x : value) : list value :=
  match x with
  | VTuple xs => xs
  | _ => [x]
  end.
End executor.

(** ** The verification loop *)

(** What [repromt_llm] gives back: the extracted code ([None] when the
    request or the extraction fails), or an exception of its own. *)
Inductive llm_reply : Type :=
| Reply (function_code : option string)
| Crash.

(** The hosted model behind [repromt_llm(function_code, doctests,
    failed_doctests)].  It is not a function of its arguments: [W] is the
    state of the outside world it answers from. *)
Class Synthesizer (W : Type) : Type := {
  repromt_llm :
    W -> option string -> list doctest -> list doctest -> llm_reply * W
}.

(** A synthesizer that is a deterministic pure function of its inputs. *)
Definition pure_synthesizer
    (f : option string -> list doctest -> list doctest -> llm_reply)
    : Synthesizer unit :=
  {| repromt_llm := fun w function_code doctests failed =>
       (f function_code doctests failed, w) |}.

(** The three arguments of one call of [repromt_llm]. *)
Record request : Type := {
  req_function_code : option string;
  req_doctests : list doctest;
  req_failed_doctests : list doctest
}.

Section verification_loop.
Context {rt : PyRuntime} {W : Type} {llm : Synthesizer W}.
Variable function_name : string.
Variable doctests : list doctest.

(** The variables of [verified_code_gen], the world, and what has been
    observed so far: the requests sent and the number of runs of [test]. *)
Record loop_state : Type := {
  i : nat;
  function_code : option string;
  function_passAccuracy : gmap (option string) nat;
  world : W;
  requests : list request;
  attempts : nat
}.

Inductive verdict : Type :=
| Succeeded (code : option string)
| Exhausted (ledger : gmap (option string) nat)
| Propagated (e : exn)
| Unfinished.

Record run : Type := {
  verdict_of : verdict;
  final : loop_state
}.

(** The function has returned or raised. *)
Definition finished (v : verdict) : bool :=
  match v with
  | Unfinished => false
  | _ => true
  end.

Definition tested (st : loop_state) : loop_state :=
  {| i := i st;
     function_code := function_code st;
     function_passAccuracy := function_passAccuracy st;
     world := world st;
     requests := requests st;
     attempts := S (attempts st) |}.

(** [while i < 5: ...] followed by [return function_passAccuracy]. *)
Fixpoint while_loop (fuel : nat) (st : loop_state) : run :=
  match fuel with
  | O => {| verdict_of := Unfinished; final := st |}
  | S fuel' =>
      if (i st <? 5)%nat then
        match test function_name (function_code st) doctests with
        | Raise e => {| verdict_of := Propagated e; final := tested st |}
        | Ok (failed, _) =>
            if (length failed =? 0)%nat then
              {| verdict_of := Succeeded (function_code st);
                 final := tested st |}
            else
              let ledger :=
                <[function_code st := length failed]>
                  (function_passAccuracy st) in
              let i' := S (i st) in
              if (i' <? 5)%nat then
                let sent :=
                  requests st ++
                    [{| req_function_code := function_code st;
                        req_doctests := doctests;
                        req_failed_doctests := failed |}] in
                match repromt_llm (world st) (function_code st)
                        doctests failed with
                | (Reply code', w') =>
                    while_loop fuel'
                      {| i := i';
                         function_code := code';
                         function_passAccuracy := ledger;
                         world := w';
                         requests := sent;
                         attempts := S (attempts st) |}
                | (Crash, w') =>
                    {| verdict_of := Propagated LLMError;
                       final :=
                         {| i := i';
                            function_code := function_code st;
                            function_passAccuracy := ledger;
                            world := w';
                            requests := sent;
                            attempts := S (attempts st) |} |}
                end
              else
                while_loop fuel'
                  {| i := i';
                     function_code := function_code st;
                     function_passAccuracy := ledger;
                     world := world st;
                     requests := requests st;
                     attempts := S (attempts st) |}
        end
      else
        {| verdict_of := Exhausted (function_passAccuracy st);
           final := st |}
  end.

(** [verified_code_gen(function_name, function_code, doctests)], run
    from the world [w]. *)
Definition verified_code_gen (w : W) (code : option string) : run :=
  while_loop 6
    {| i := 0;
       function_code := code;
       function_passAccuracy := ∅;
       world := w;
       requests := [];
       attempts := 0 |}.

(** What a request of the loop carries: the code that was just run, the
    whole collection, and the cases that code failed, as [test] returns
    them in its first sequence. *)
Definition faithful_request (r : request) : Prop :=
  req_doctests r = doctests /\
  req_failed_doctests r <> [] /\
  exists results,
    test function_name (req_function_code r) doctests
    = Ok (req_failed_doctests r, results).

(** Some doctest of the request has the output [v]. *)
Definition mentions_output (v : value) (r : request) : bool :=
  existsb (fun d => py_eq (snd d) v)
    (req_doctests r ++ req_failed_doctests r).
End verification_loop.

(** ** Building the doctest set ([processes/doctests.py]) *)

(** The body of the inner loop of [suggested_doctest_inputs_generator]. *)
Definition suggest_step (user_doctest_inputs : list value)
    (suggested_doctests : list value) (doctest_input : value) : list value :=
  if negb (py_in doctest_input user_doctest_inputs)
     && negb (py_in doctest_input suggested_doctests)
  then suggested_doctests ++ [doctest_input]
  else suggested_doctests.

(** [suggested_doctest_inputs_generator(user_doctests, llm_doctests,
    crosshair_doctests, ghostwriter_doctests)] *)
Definition suggested_doctest_inputs_generator (user_doctests : list doctest)
    (llm_doctests crosshair_doctests ghostwriter_doctests : list value)
    : list value :=
  let user_doctest_inputs := List.map fst user_doctests in
  fold_left
    (fun suggested_doctests doctest_list =>
       fold_left (suggest_step user_doctest_inputs) doctest_list
         suggested_doctests)
    [llm_doctests; crosshair_doctests; ghostwriter_doctests]
    [].

(** The suggestion step in the words of its contract: the candidates are
    taken in the order the sources are consulted, and one is emitted when
    it equals no input of a user case and nothing emitted before it. *)
Fixpoint emit_new (user_inputs emitted candidates : list value) : list value :=
  match candidates with
  | [] => []
  | x :: rest =>
      if py_in x user_inputs || py_in x emitted then
        emit_new user_inputs emitted rest
      else
        x :: emit_new user_inputs (emitted ++ [x]) rest
  end.

Definition suggest_contract (user_cases : list doctest)
    (source_lists : list (list value)) : list value :=
  emit_new (List.map fst user_cases) [] (List.concat source_lists).

(** No entry of the list equals, by value, an entry after it. *)
Fixpoint distinct_values (l : list value) : bool :=
  match l with
  | [] => true
  | x :: rest => negb (py_in x rest) && distinct_values rest
  end.

Section doctest_set_builder.
Context {rt : PyRuntime}.

(** One iteration of either loop of [suggested_doctests_list_generator]. *)
Definition observe_step (spread : bool) (function_ref : option pyfun)
    (suggested_doctests : list doctest) (doctest_input : value)
    : list doctest :=
  match invoke spread function_ref doctest_input with
  | Returned output => suggested_doctests ++ [(doctest_input, output)]
  | Raised msg =>
      suggested_doctests ++ [(doctest_input, VStr ("Error: " +:+ msg))]
  end.

(** What the suggested doctest shows as the output of an input. *)
Definition observed (spread : bool) (function_ref : option pyfun)
    (doctest_input : value) : value :=
  match invoke spread function_ref doctest_input with
  | Returned output => output
  | Raised msg => VStr ("Error: " +:+ msg)
  end.

(** [suggested_doctests_list_generator(suggested_doctest_inputs,
    function_name, function_code)] *)
Definition suggested_doctests_list_generator
    (suggested_doctest_inputs : list value) (function_name : string)
    (function_code : string) : result (list doctest) :=
  match suggested_doctest_inputs with
  | [] => Ok []
  | first :: _ =>
      match exec_code (Some function_code) with
      | None => Raise ExecError
      | Some namespace =>
          let function_ref := namespace function_name in
          if negb (is_tuple first) then
            Ok (fold_left (observe_step false function_ref)
                  suggested_doctest_inputs [])
          else
            Ok (fold_left (observe_step true function_ref)
                  suggested_doctest_inputs [])
      end
  end.

(** [d[key]] on a dict of strings. *)
Definition getitem (d : gmap string string) (key : string) : result string :=
  match d !! key with
  | Some text => Ok text
  | None => Raise (KeyError key)
  end.

(** [eval(text)], with its exception when it raises. *)
Definition eval_text (text : string) : result value :=
  match py_eval text with
  | Evaluated v => Ok v
  | EvalException => Raise EvalError
  | EvalExit => Raise SystemExit
  end.

(** The loop of [final_doctests_generator], from index [i] on. *)
Fixpoint confirm_loop (doctests_details : gmap string string)
    (return_type : string) (i : nat) (suggested_doctests : list doctest)
    (new_doctests : list doctest) (all_doctests_passed : bool)
    : result (list doctest * bool) :=
  match suggested_doctests with
  | [] => Ok (new_doctests, all_doctests_passed)
  | doctest :: rest =>
      confirmation ← getitem doctests_details ("confirmation_" +:+ pretty i);
      if String.eqb confirmation "accept" then
        if py_ne (snd doctest) (VStr "Error") then
          confirm_loop doctests_details return_type (S i) rest
            (new_doctests ++ [doctest]) all_doctests_passed
        else
          confirm_loop doctests_details return_type (S i) rest
            new_doctests all_doctests_passed
      else
        output ← getitem doctests_details ("output_" +:+ pretty i);
        if negb (String.eqb output "Error") then
          if String.eqb return_type "str" then
            confirm_loop doctests_details return_type (S i) rest
              (new_doctests ++ [(fst doctest, VStr output)]) false
          else
            output_val ← eval_text output;
            confirm_loop doctests_details return_type (S i) rest
              (new_doctests ++ [(fst doctest, output_val)]) false
        else
          confirm_loop doctests_details return_type (S i) rest
            new_doctests false
  end.

(** [final_doctests_generator(doctests_details, user_doctests,
    suggested_doctests, return_type)] *)
Definition final_doctests_generator (doctests_details : gmap string string)
    (user_doctests suggested_doctests : list doctest) (return_type : string)
    : result (list doctest * bool) :=
  r ← confirm_loop doctests_details return_type 0 suggested_doctests [] true;
  mret (user_doctests ++ fst r, snd r).

(** ** Reading the user's doctests ([processes/function_parser.py]) *)

(** [except Exception:] catches everything but [SystemExit] and its
    like. *)
Definition is_Exception (e : exn) : bool :=
  match e with
  | SystemExit => false
  | _ => true
  end.

Definition try_except_Exception {A : Type} (body : result A) (handler : A)
    : result A :=
  match body with
  | Ok a => Ok a
  | Raise e => if is_Exception e then Ok handler else Raise e
  end.

(** [f"doctest_{i}"] and [f"output_{i}"] *)
Definition doctest_key (i : nat) : string := "doctest_" +:+ pretty i.
Definition output_key (i : nat) : string := "output_" +:+ pretty i.

(** The [for i in range(...)] loop of [user_doctests_generator]: [count]
    iterations from index [i]. *)
Fixpoint parse_loop (function_details : gmap string string) (i count : nat)
    (doctests : list doctest) : result (list doctest) :=
  match count with
  | O => Ok doctests
  | S count' =>
      input_str ← getitem function_details (doctest_key i);
      output_str ← getitem function_details (output_key i);
      input_val ← eval_text input_str;
      output_val ← eval_text output_str;
      parse_loop function_details (S i) count'
        (doctests ++ [(input_val, output_val)])
  end.

(** The field [key] is absent, or [eval] raises an [Exception] on its
    text. *)
Definition malformed_field (function_details : gmap string string)
    (key : string) : bool :=
  match function_details !! key with
  | None => true
  | Some text =>
      match py_eval text with
      | EvalException => true
      | _ => false
      end
  end.

(** [eval] leaves with an exception outside [Exception] on the text of
    the field [key]. *)
Definition exiting_field (function_details : gmap string string)
    (key : string) : bool :=
  match function_details !! key with
  | None => false
  | Some text =>
      match py_eval text with
      | EvalExit => true
      | _ => false
      end
  end.

(** [user_doctests_generator(function_details)] *)
Definition user_doctests_generator (function_details : gmap string string)
    : result (list doctest) :=
  text ← getitem function_details "number_of_doctests";
  match py_int text with
  | None => Raise (ValueError text)
  | Some num_tests =>
      try_except_Exception
        (parse_loop function_details 1 (Z.to_nat num_tests) [])
        []
  end.
End doctest_set_builder.

(** ** A small interpreter for the scenarios

    An instance of the runtime that knows the handful of sources and
    literal texts the scenarios below use.  The candidate functions are
    given on integer arguments (booleans included), which is where the
    scenarios call them. *)

Definition as_int (v : value) : option Z :=
  match v with
  | VInt n => Some n
  | VBool b => Some (Z.b2z b)
  | _ => None
  end.

Definition int_binary (op : Z -> Z -> outcome) : pyfun := fun args =>
  match args with
  | [a; b] =>
      match as_int a, as_int b with
      | Some m, Some n => op m n
      | _, _ => Raised "unsupported operand type(s)"
      end
  | _ => Raised "wrong number of positional arguments"
  end.

Definition newline : string := String (ascii_of_nat 10) EmptyString.

Definition multiply_times_src : string := "def multiply(a, b): return a*b".
Definition multiply_plus_src : string := "def multiply(a, b): return a+b".
Definition same_src : string := "def same(x): return x".
Definition ratio_src : string :=
  "def ratio(a, b):" +:+ newline +:+
  "    if b == 0:" +:+ newline +:+
  "        raise ValueError('b is zero')" +:+ newline +:+
  "    return a // b".

Definition multiply_times : pyfun := int_binary (fun m n => Returned (VInt (m * n))).
Definition multiply_plus : pyfun := int_binary (fun m n => Returned (VInt (m + n))).
Definition same : pyfun := fun args =>
  match args with
  | [x] => Returned x
  | _ => Raised "wrong number of positional arguments"
  end.
Definition ratio : pyfun :=
  int_binary (fun m n =>
    if (n =? 0)%Z then Raised "b is zero" else Returned (VInt (m / n))).

(** The namespace with the single definition [name]. *)
Definition defines (name : string) (f : pyfun) : namespace := fun key =>
  if String.eqb key name then Some f else None.

Definition demo_exec (src : string) : option namespace :=
  if String.eqb src multiply_times_src then Some (defines "multiply" multiply_times)
  else if String.eqb src multiply_plus_src then Some (defines "multiply" multiply_plus)
  else if String.eqb src same_src then Some (defines "same" same)
  else if String.eqb src ratio_src then Some (defines "ratio" ratio)
  else None.

Definition demo_eval (text : string) : eval_outcome :=
  if String.eqb text "(2, 3)" then Evaluated (VTuple [VInt 2; VInt 3])
  else if String.eqb text "(0, 0)" then Evaluated (VTuple [VInt 0; VInt 0])
  else if String.eqb text "6" then Evaluated (VInt 6)
  else if String.eqb text "0" then Evaluated (VInt 0)
  else if String.eqb text "__import__('sys').exit()" then EvalExit
  else EvalException.

(** [int(text)] on a text of decimal digits. *)
Fixpoint digits_value (text : string) (acc : Z) : option Z :=
  match text with
  | EmptyString => Some acc
  | String c rest =>
      let n := Z.of_nat (nat_of_ascii c) in
      if ((48 <=? n) && (n <=? 57))%Z then digits_value rest (10 * acc + (n - 48))
      else None
  end.

Definition demo_int (text : string) : option Z :=
  match text with
  | EmptyString => None
  | _ => digits_value text 0
  end.

Definition demo_runtime : PyRuntime :=
  {| py_exec := demo_exec;
     py_eval := demo_eval;
     py_int := demo_int;
     not_callable_msg := "'NoneType' object is not callable";
     not_iterable_msg := fun _ => "argument after * must be an iterable" |}.

(** A model that answers every request with the same text. *)
Definition stubborn (text : string) : Synthesizer unit :=
  pure_synthesizer (fun _ _ _ => Reply (Some text)).

(** A model that answers from a script, one entry per request, and
    crashes when the script is used up. *)
Definition scripted : Synthesizer (list (option string)) :=
  {| repromt_llm := fun script _ _ _ =>
       match script with
       | [] => (Crash, [])
       | answer :: rest => (Reply answer, rest)
       end |}.

(** The seed collection [[((2, 3), 6)]]. *)
Definition seed : list doctest := [(VTuple [VInt 2; VInt 3], VInt 6)].

(** A form with one doctest. *)
Definition form (count input output : string) : gmap string string :=
  <["number_of_doctests" := count]>
    (<["doctest_1" := input]> (<["output_1" := output]> ∅)).

(** ** Further definitions *)

Section ledger.
Context {rt : PyRuntime}.
Variable function_name : string.
Variable doctests : list doctest.

(** The ledger holds, for candidates that were run, the number of cases
    each failed, which is not zero. *)
Definition ledger_sound (ledger : gmap (option string) nat) : Prop :=
  forall code n,
    ledger !! code = Some n ->
    (0 < n)%nat /\
    exists failed results,
      test function_name code doctests = Ok (failed, results) /\
      length failed = n.
End ledger.

(** *** The rest of [processes/doctests.py] *)

(** [refuted_doctest_inputs_generator(doctests, llm_doctests,
    user_doctests)]: the same scan as the suggestion step, over the model's
    inputs and then over the entries of [doctests]. *)
Definition refuted_doctest_inputs_generator (doctests llm_doctests : list value)
    (user_doctests : list doctest) : list value :=
  let user_doctest_inputs := List.map fst user_doctests in
  fold_left
    (fun suggested_doctests doctest_list =>
       fold_left (suggest_step user_doctest_inputs) doctest_list
         suggested_doctests)
    [llm_doctests; doctests]
    [].

Section refute_flow.
Context {rt : PyRuntime}.

(** The loop of [final_doctests], from index [i] on. *)
Fixpoint refute_confirm_loop (doctests_details : gmap string string)
    (i : nat) (llm_doctests : list doctest) (new_doctests : list doctest)
    (all_doctests_passed : bool) : result (list doctest * bool) :=
  match llm_doctests with
  | [] => Ok (new_doctests, all_doctests_passed)
  | doctest :: rest =>
      confirmation ← getitem doctests_details ("confirmation_" +:+ pretty i);
      if String.eqb confirmation "accept" then
        if py_ne (snd doctest) (VStr "Error") then
          refute_confirm_loop doctests_details (S i) rest
            (new_doctests ++ [doctest]) all_doctests_passed
        else
          refute_confirm_loop doctests_details (S i) rest
            new_doctests all_doctests_passed
      else
        output ← getitem doctests_details ("output_" +:+ pretty i);
        if negb (String.eqb output "Error") then
          refute_confirm_loop doctests_details (S i) rest
            (new_doctests ++ [(fst doctest, VStr output)]) false
        else
          refute_confirm_loop doctests_details (S i) rest new_doctests false
  end.

(** [final_doctests(doctests_details, llm_doctests, user_doctests,
    old_doctests)] *)
Definition final_doctests (doctests_details : gmap string string)
    (llm_doctests user_doctests old_doctests : list doctest)
    : result (list doctest * bool) :=
  r ← refute_confirm_loop doctests_details 0 llm_doctests [] true;
  mret (fst r ++ user_doctests ++ old_doctests, snd r).
End refute_flow.

(** *** The rest of [processes/function_parser.py] *)

(** [sep.join(parts)] *)
Fixpoint join (sep : string) (parts : list string) : string :=
  match parts with
  | [] => ""
  | [part] => part
  | part :: rest => part +:+ sep +:+ join sep rest
  end.

Section function_parser.
Context {rt : PyRuntime}.

Definition argument_key (i : nat) : string := "argument_" +:+ pretty i.

(** [[function_details[f"argument_{i}"] for i in range(...)]]: [count]
    entries from index [i]. *)
Fixpoint read_arguments (function_details : gmap string string)
    (i count : nat) : result (list string) :=
  match count with
  | O => Ok []
  | S count' =>
      argument ← getitem function_details (argument_key i);
      rest ← read_arguments function_details (S i) count';
      mret (argument :: rest)
  end.

(** [function_signature_generator(function_details)] *)
Definition function_signature_generator
    (function_details : gmap string string) : result string :=
  function_name ← getitem function_details "function_name";
  text ← getitem function_details "number_of_arguments";
  match py_int text with
  | None => Raise (ValueError text)
  | Some num_args =>
      arguments ← read_arguments function_details 1 (Z.to_nat num_args);
      let arg_str := join ", " arguments in
      return_type ← getitem function_details "return_1";
      mret ("def " +:+ function_name +:+ "(" +:+ arg_str +:+ ") -> "
            +:+ return_type +:+ ":")
  end.

(** [num_tests + 1], as [range(1, num_tests + 1)] needs it: an integer
    for an integer or a boolean, a [TypeError] for anything else. *)
Definition plus_one (num_tests : value) : option Z :=
  match num_tests with
  | VInt n => Some (n + 1)
  | VBool b => Some (Z.b2z b + 1)
  | _ => None
  end.

(** [user_refute_doctests_generator(function_details, num_tests)].  The
    [range] is built inside the [try], so its [TypeError] is caught. *)
Definition user_refute_doctests_generator
    (function_details : gmap string string) (num_tests : value)
    : result (list doctest) :=
  match plus_one num_tests with
  | None => Ok []
  | Some stop =>
      try_except_Exception
        (parse_loop function_details 1 (Z.to_nat (stop - 1)) [])
        []
  end.
End function_parser.

(** *** Helpers of [LLM/LLM_Interface.py] *)

(** [normalize_doctests(doctests)] *)
Definition normalize_doctests (doctests : list value) : list value :=
  fold_left
    (fun normalized d =>
       match d with
       | VTuple [x] => normalized ++ [x]
       | _ => normalized ++ [d]
       end)
    doctests [].

(** The content of a tuple of one element, any other value as it is. *)
Definition unwrap (d : value) : value :=
  match d with
  | VTuple [x] => x
  | _ => d
  end.

Definition is_newline (c : ascii) : bool := Ascii.eqb c (ascii_of_nat 10).
Definition is_hash (c : ascii) : bool := Ascii.eqb c (ascii_of_nat 35).

(** [re.sub(r"#.*", "", text)]: from each [#] up to the end of its line,
    the line break excluded.  [in_comment] tells that a [#] has been met
    on the current line. *)
Fixpoint strip_comments (in_comment : bool) (text : string) : string :=
  match text with
  | EmptyString => EmptyString
  | String c rest =>
      if is_newline c then String c (strip_comments false rest)
      else if in_comment then strip_comments true rest
      else if is_hash c then strip_comments true rest
      else String c (strip_comments false rest)
  end.

(** The character [c] occurs in the text. *)
Fixpoint occurs (c : ascii) (text : string) : bool :=
  match text with
  | EmptyString => false
  | String c' rest => Ascii.eqb c' c || occurs c rest
  end.

(** The number of occurrences of [c] in the text. *)
Fixpoint count_char (c : ascii) (text : string) : nat :=
  match text with
  | EmptyString => O
  | String c' rest =>
      (if Ascii.eqb c' c then 1 else 0)%nat + count_char c rest
  end.

Section parse_inputs.
(** [ast.literal_eval(text)], [None] when it raises. *)
Variable literal_eval : string -> option value.
(** [eval(text, safe_env, {})] *)
Variable restricted_eval : string -> eval_outcome.

(** [parse_doctest_inputs(text)] *)
Definition parse_doctest_inputs (text : string) : result value :=
  let cleaned := strip_comments false text in
  match literal_eval cleaned with
  | Some v => Ok v
  | None =>
      match restricted_eval cleaned with
      | Evaluated v => Ok v
      | EvalException => Ok (VList [])
      | EvalExit => Raise SystemExit
      end
  end.
End parse_inputs.

(** What one call of [client.chat.completions.create] does. *)
Inductive api_outcome (R : Type) : Type :=
| GotResponse (response : R)
| GotNone
| HttpError
| OtherError.
Arguments GotResponse {R} response.
Arguments GotNone {R}.
Arguments HttpError {R}.
Arguments OtherError {R}.

Section requests.
Context {W R P : Type}.
(** The client: from the state of the world and the payload (model and
    messages) to what the call does and the world after it. *)
Variable create : W -> P -> api_outcome R * W.

(** The world, the calls made and the factors [attempt] of the delays
    slept, [time.sleep(delay * attempt)]. *)
Record retry_state : Type := {
  retry_world : W;
  api_calls : nat;
  slept : list nat
}.

(** [for attempt in attempts: ...] and what follows the loop. *)
Fixpoint retry_loop (payload : P) (attempts : list nat) (st : retry_state)
    : result (option R) * retry_state :=
  match attempts with
  | [] => (Ok None, st)
  | attempt :: rest =>
      match create (retry_world st) payload with
      | (GotResponse response, w') =>
          (Ok (Some response),
           {| retry_world := w'; api_calls := S (api_calls st);
              slept := slept st |})
      | (OtherError, w') =>
          (Raise LLMError,
           {| retry_world := w'; api_calls := S (api_calls st);
              slept := slept st |})
      | (_, w') =>
          retry_loop payload rest
            {| retry_world := w'; api_calls := S (api_calls st);
               slept := slept st ++ [attempt] |}
      end
  end.

(** [make_request_with_retries(client, model, messages, retries, delay)] *)
Definition make_request_with_retries (w : W) (payload : P) (retries : Z)
    : result (option R) * retry_state :=
  retry_loop payload (seq 1 (Z.to_nat retries))
    {| retry_world := w; api_calls := 0; slept := [] |}.
End requests.

(** What one pass of the syntax loop did: the reply of the model and
    whether [exec] accepted it. *)
Record syntax_try : Type := {
  try_reply : llm_reply;
  try_defined : bool
}.

Inductive acquired : Type :=
| Acquired (new_response : string)
| GaveUp
| StillLooping.

Section syntax_acquisition.
Context {W N : Type}.
(** [exec(text, namespace)] on the namespace the loop keeps: whether it
    returned, and the namespace after it. *)
Variable exec_in : N -> string -> bool * N.
(** The request the loop repeats. *)
Variable ask : W -> llm_reply * W.

Record syntax_state : Type := {
  syntax_i : nat;
  syntax_namespace : N;
  syntax_world : W;
  tries : list syntax_try
}.

(** [while i < 3: try: ... except Exception: i += 1] and the final
    [return None]. *)
Fixpoint syntax_loop (fuel : nat) (st : syntax_state)
    : acquired * syntax_state :=
  match fuel with
  | O => (StillLooping, st)
  | S fuel' =>
      if (syntax_i st <? 3)%nat then
        match ask (syntax_world st) with
        | (Reply (Some new_response), w') =>
            match exec_in (syntax_namespace st) new_response with
            | (true, namespace') =>
                (Acquired new_response,
                 {| syntax_i := syntax_i st;
                    syntax_namespace := namespace';
                    syntax_world := w';
                    tries :=
                      tries st ++
                        [{| try_reply := Reply (Some new_response);
                            try_defined := true |}] |})
            | (false, namespace') =>
                syntax_loop fuel'
                  {| syntax_i := S (syntax_i st);
                     syntax_namespace := namespace';
                     syntax_world := w';
                     tries :=
                       tries st ++
                         [{| try_reply := Reply (Some new_response);
                             try_defined := false |}] |}
            end
        | (reply, w') =>
            syntax_loop fuel'
              {| syntax_i := S (syntax_i st);
                 syntax_namespace := syntax_namespace st;
                 syntax_world := w';
                 tries :=
                   tries st ++
                     [{| try_reply := reply; try_defined := false |}] |}
        end
      else (GaveUp, st)
  end.

Definition syntax_acquire (namespace : N) (w : W) : acquired * syntax_state :=
  syntax_loop 4
    {| syntax_i := 0;
       syntax_namespace := namespace;
       syntax_world := w;
       tries := [] |}.
End syntax_acquisition.

Section syntax_callers.
Context {W N : Type}.
Variable exec_in : N -> string -> bool * N.
(** The empty dictionary [namespace = {}]. *)
Variable empty_namespace : N.
(** [generate_function_code(function_signature, docstring, doctests)] *)
Variable generate_function_code :
  string -> string -> list doctest -> W -> llm_reply * W.
(** [refute_code(function_code, doctests)] *)
Variable refute_code : string -> list doctest -> W -> llm_reply * W.

(** [check_syntax_errors(function_signature, docstring, doctests)] *)
Definition check_syntax_errors (function_signature docstring : string)
    (doctests : list doctest) (w : W) : acquired * syntax_state :=
  syntax_acquire exec_in
    (generate_function_code function_signature docstring doctests)
    empty_namespace w.

(** [refute_code_errors(function_code, doctests)] *)
Definition refute_code_errors (function_code : string)
    (doctests : list doctest) (w : W) : acquired * syntax_state :=
  syntax_acquire exec_in (refute_code function_code doctests)
    empty_namespace w.
End syntax_callers.

Section files.
(** Whether [write_text] succeeds on the file of that name. *)
Variable writable : string -> bool.

(** [Create_File(function_name, function_code)] on the files of the
    [Programs] folder, by name; the folder itself is taken to exist or to
    be creatable. *)
Definition Create_File (programs : gmap string string)
    (function_name function_code : string)
    : result (string * gmap string string) :=
  let file_name := function_name +:+ ".py" in
  match programs !! file_name with
  | Some _ => Ok (file_name, programs)
  | None =>
      if writable file_name then
        Ok (file_name, <[file_name := function_code]> programs)
      else Raise SystemExit
  end.
End files.

(** *** [Crosshair/generate_doctest.py] *)

(** [text.split(", ")]; [current] is the piece being read. *)
Fixpoint split_comma_space (text : string) (current : string) : list string :=
  match text with
  | EmptyString => [current]
  | String c rest =>
      match rest with
      | String c' rest' =>
          if Ascii.eqb c (ascii_of_nat 44) && Ascii.eqb c' (ascii_of_nat 32)
          then current :: split_comma_space rest' EmptyString
          else split_comma_space rest (current +:+ String c EmptyString)
      | EmptyString => [current +:+ String c EmptyString]
      end
  end.

Inductive crosshair_outcome : Type :=
| Inputs (CrossHair_Inputs : list value)
| Exits
| PreflightRaises.

Section crosshair.
(** [is_crosshair_installed()]: its answer, or [None] when running the
    tool raises. *)
Variable installed : option bool.
(** [file_path.exists()] *)
Variable file_exists : string -> bool.
(** [subprocess.run(["crosshair", "cover", path], ...)]: the return code
    and the standard output, or [None] when it raises. *)
Variable run_cover : string -> option (Z * string).
(** [re.findall(r"(\w+)\((.*?)\)", text)] *)
Variable findall : string -> list (string * string).
(** [ast.literal_eval(text)], [None] when it raises. *)
Variable literal_eval : string -> option value.

(** [map(literal_eval, inputs)], consumed by [tuple]: [None] when some
    piece raises. *)
Fixpoint eval_pieces (inputs : list string) : option (list value) :=
  match inputs with
  | [] => Some []
  | piece :: rest =>
      match literal_eval piece with
      | None => None
      | Some v =>
          match eval_pieces rest with
          | None => None
          | Some vs => Some (v :: vs)
          end
      end
  end.

(** The loop over the matches; [None] when an exception ends it. *)
Fixpoint crosshair_loop (matches : list (string * string))
    (CrossHair_Inputs : list value) : option (list value) :=
  match matches with
  | [] => Some CrossHair_Inputs
  | m :: rest =>
      match eval_pieces (split_comma_space (snd m) EmptyString) with
      | None => None
      | Some inputs => crosshair_loop rest (CrossHair_Inputs ++ [VTuple inputs])
      end
  end.

(** [generate_doctest_CrossHair(file_name)] *)
Definition generate_doctest_CrossHair (file_name : string) : crosshair_outcome :=
  match installed with
  | None => PreflightRaises
  | Some false => Exits
  | Some true =>
      if negb (file_exists file_name) then Exits
      else
        match run_cover file_name with
        | None => Inputs []
        | Some (returncode, stdout) =>
            if negb (returncode =? 0)%Z then Inputs []
            else
              match crosshair_loop (findall stdout) [] with
              | Some CrossHair_Inputs => Inputs CrossHair_Inputs
              | None => Inputs []
              end
        end
  end.
End crosshair.

(** Every suggestion from index [i] on has been accepted. *)
Definition all_accepted (doctests_details : gmap string string) (i n : nat)
    : Prop :=
  forall k, (k < n)%nat ->
    doctests_details !! ("confirmation_" +:+ pretty (i + k)%nat)
    = Some "accept".

(** The call raised. *)
Definition raises (o : outcome) : bool :=
  match o with
  | Raised _ => true
  | Returned _ => false
  end.

(** The answers of a form that accepts its first suggestion, and of one
    that replaces its output by the text [6]. *)
Definition accept_first : gmap string string :=
  <["confirmation_0" := "accept"]> ∅.
Definition override_first : gmap string string :=
  <["confirmation_0" := "reject"]> (<["output_0" := "6"]> ∅).

Section read_fields.
Context {rt : PyRuntime}.

(** The doctest read at index [k] of the form. *)
Definition read_from (function_details : gmap string string) (k : nat)
    (d : doctest) : Prop :=
  exists input_str output_str,
    function_details !! doctest_key k = Some input_str /\
    function_details !! output_key k = Some output_str /\
    py_eval input_str = Evaluated (fst d) /\
    py_eval output_str = Evaluated (snd d).

End read_fields.

(** A form that announces two arguments and gives the first. *)
Definition signature_form : gmap string string :=
  <["function_name" := "multiply"]>
    (<["number_of_arguments" := "2"]>
       (<["argument_1" := "a: int"]> (<["return_1" := "int"]> ∅))).

(** A client that fails with an HTTP error as many times as the world
    says, and then echoes the payload. *)
Definition flaky_client (w : nat) (payload : string) : api_outcome string * nat :=
  match w with
  | O => (GotResponse payload, O)
  | S w' => (HttpError, w')
  end.

(** [exec] on a namespace that keeps nothing: what [demo_exec] accepts. *)
Definition demo_exec_in (namespace : unit) (text : string) : bool * unit :=
  (match demo_exec text with Some _ => true | None => false end, namespace).

(** A model that answers the requests of the syntax loop from a script. *)
Definition scripted_ask (script : list (option string))
    : llm_reply * list (option string) :=
  match script with
  | [] => (Crash, [])
  | answer :: rest => (Reply answer, rest)
  end.

(** [literal_eval] on the few literals the explorer's scenario uses. *)
Definition demo_literal_eval (text : string) : option value :=
  if String.eqb text "0" then Some (VInt 0)
  else if String.eqb text "-1" then Some (VInt (-1))
  else if String.eqb text "5" then Some (VInt 5)
  else None.

(** The matches of an explorer run that reports two calls of [divide]. *)
Definition demo_findall (stdout : string) : list (string * string) :=
  [("divide", "0, 0"); ("divide", "0, -1")].

(** No pass of these has produced code that [exec] accepted. *)
Definition all_rejected (l : list syntax_try) : Prop :=
  Forall (fun t => try_defined t = false) l.

(** *** The choice of the least failing candidate ([main.py]) *)

(** [min(values)], [None] when the list is empty and [min] raises. *)
Definition min_value (values : list nat) : option nat :=
  match values with
  | [] => None
  | v :: rest => Some (fold_left Nat.min rest v)
  end.

(** The two lines of [get_function_code] that read the ledger, on its
    items in the order the dictionary lists them:
    [min_value = min(function_code.values())] and
    [min_key = next(key for key, value in function_code.items()
                    if value == min_value)]. *)
Definition min_key (items : list (option string * nat))
    : option (option string) :=
  match min_value (List.map snd items) with
  | None => None
  | Some least =>
      match List.find (fun item => (snd item =? least)%nat) items with
      | Some item => Some (fst item)
      | None => None
      end
  end.

(** The synthesizer [llm], made to keep what it is called with: its world
    carries, beside the world of [llm], the arguments of every call of
    [repromt_llm] it has received, in order.  Its replies are those of
    [llm]. *)
Definition recording {W : Type} (llm : Synthesizer W)
    : Synthesizer (W * list request) :=
  {| repromt_llm := fun state function_code doctests failed_doctests =>
       let (reply, w') :=
         @repromt_llm W llm (fst state) function_code doctests
           failed_doctests in
       (reply,
        (w',
         snd state ++
           [{| req_function_code := function_code;
               req_doctests := doctests;
               req_failed_doctests := failed_doctests |}])) |}.

(** A state of the loop run with [recording llm], seen as a state of the
    loop run with [llm]. *)
Definition unrecorded {W : Type} (st : loop_state (W := W * list request))
    : loop_state (W := W) :=
  {| i := i st;
     function_code := function_code st;
     function_passAccuracy := function_passAccuracy st;
     world := fst (world st);
     requests := requests st;
     attempts := attempts st |}.

(** What [test] reports for a case of expected output [expected] when the
    candidate [f] is given [args] ([None]: the input could not be
    unpacked): [None] when the case passes, the reported actual value when
    it fails. *)
Definition case_report (f : pyfun) (args : option (list value))
    (expected : value) : option value :=
  match args with
  | None => Some (VStr "Error")
  | Some a =>
      match f a with
      | Returned output =>
          if py_eq output expected then None else Some output
      | Raised _ => Some (VStr "Error")
      end
  end.

(** * Properties *)

(** ** Value equality *)

Lemma py_eq_tuple xs ys : py_eq (VTuple xs) (VTuple ys) = seq_eq py_eq xs ys.
Proof.
  revert ys; induction xs as [|x xs IH]; intros [|y ys]; simpl; try reflexivity.
  f_equal. apply IH.
Qed.

Lemma py_eq_list xs ys : py_eq (VList xs) (VList ys) = seq_eq py_eq xs ys.
Proof.
  revert ys; induction xs as [|x xs IH]; intros [|y ys]; simpl; try reflexivity.
  f_equal. apply IH.
Qed.

Lemma seq_eq_norm xs :
  Forall (fun a => forall b, py_eq a b = true <-> norm a = norm b) xs ->
  forall ys, seq_eq py_eq xs ys = true <-> List.map norm xs = List.map norm ys.
Proof.
  induction 1 as [|x xs Hx _ IH]; intros [|y ys]; simpl; split;
    try congruence; try reflexivity.
  - intros [H1 H2]%andb_true_iff. f_equal; [by apply Hx | by apply IH].
  - intros H. injection H as H1 H2. apply andb_true_iff.
    split; [by apply Hx | by apply IH].
Qed.

(** [==] is exactly equality of canonical representatives. *)
Lemma py_eq_norm a : forall b, py_eq a b = true <-> norm a = norm b.
Proof.
  induction a as [| x | m | s | xs IH | xs IH] using value_nested_ind;
    intros b.
  - destruct b; simpl; split; congruence.
  - destruct b as [| y | n | | |]; simpl; split; try congruence.
    + destruct x, y; simpl; congruence.
    + destruct x, y; simpl; congruence.
    + intros H%Z.eqb_eq. congruence.
    + intros H. apply Z.eqb_eq. congruence.
  - destruct b as [| y | n | | |]; simpl; split; try congruence.
    + intros H%Z.eqb_eq. congruence.
    + intros H. apply Z.eqb_eq. congruence.
    + intros H%Z.eqb_eq. congruence.
    + intros H. apply Z.eqb_eq. congruence.
  - destruct b as [| | | t | |]; simpl; split; try congruence.
    + intros H%String.eqb_eq. congruence.
    + intros H. apply String.eqb_eq. congruence.
  - destruct b as [| | | | ys | ys]; try (simpl; split; congruence).
    rewrite py_eq_tuple, (seq_eq_norm xs IH ys). simpl.
    split; congruence.
  - destruct b as [| | | | ys | ys]; try (simpl; split; congruence).
    rewrite py_eq_list, (seq_eq_norm xs IH ys). simpl.
    split; congruence.
Qed.

Lemma py_eq_refl a : py_eq a a = true.
Proof. by apply py_eq_norm. Qed.

Lemma py_eq_sym a b : py_eq a b = py_eq b a.
Proof.
  destruct (py_eq a b) eqn:E1, (py_eq b a) eqn:E2; try reflexivity.
  - apply py_eq_norm in E1. symmetry in E1. apply py_eq_norm in E1. congruence.
  - apply py_eq_norm in E2. symmetry in E2. apply py_eq_norm in E2. congruence.
Qed.

Lemma py_eq_trans a b c :
  py_eq a b = true -> py_eq b c = true -> py_eq a c = true.
Proof. rewrite !py_eq_norm. congruence. Qed.

Lemma py_in_true x l : py_in x l = true <-> exists y, In y l /\ py_eq x y = true.
Proof. unfold py_in. apply existsb_exists. Qed.

Lemma py_in_false x l :
  py_in x l = false <-> forall y, In y l -> py_eq x y = false.
Proof.
  unfold py_in. induction l as [|z l IH]; simpl.
  - split; [intros _ y [] | reflexivity].
  - rewrite orb_false_iff, IH. split.
    + intros [H1 H2] y [<-|Hy]; auto.
    + intros H. split; [apply H; auto | intros y Hy; apply H; auto].
Qed.

Lemma py_in_app x l1 l2 : py_in x (l1 ++ l2) = py_in x l1 || py_in x l2.
Proof. unfold py_in. apply existsb_app. Qed.

Lemma py_in_congr x y l : py_eq x y = true -> py_in x l = py_in y l.
Proof.
  intros Hxy. induction l as [|z l IH]; simpl; [reflexivity|].
  rewrite IH. f_equal.
  destruct (py_eq x z) eqn:E1, (py_eq y z) eqn:E2; try reflexivity.
  - rewrite py_eq_sym in Hxy. rewrite (py_eq_trans _ _ _ Hxy E1) in E2. congruence.
  - rewrite (py_eq_trans _ _ _ Hxy E2) in E1. congruence.
Qed.

(** ** The candidate executor *)

Section executor_properties.
Context {rt : PyRuntime}.

Lemma test_step_classify spread func st d :
  test_step spread func st d =
    {| failed_doctests :=
         failed_doctests st ++ non_passing spread func [d];
       failed_doctests_results :=
         failed_doctests_results st ++
           List.map (fun d => (fst d, reported (classify spread func d)))
             (non_passing spread func [d]);
       calls := calls st ++ entered spread func (fst d) |}.
Proof.
  unfold test_step, non_passing, classify, py_ne. simpl.
  destruct (invoke spread func (fst d)) as [out|msg] eqn:Ei; simpl;
    try destruct (py_eq out (snd d)) eqn:Eo; simpl;
    rewrite ?Ei, ?app_nil_r; simpl; rewrite ?Eo; reflexivity.
Qed.

Lemma test_loop_classify spread func doctests st :
  fold_left (test_step spread func) doctests st =
    {| failed_doctests :=
         failed_doctests st ++ non_passing spread func doctests;
       failed_doctests_results :=
         failed_doctests_results st ++
           List.map (fun d => (fst d, reported (classify spread func d)))
             (non_passing spread func doctests);
       calls :=
         calls st ++
           List.concat
             (List.map (fun d => entered spread func (fst d)) doctests) |}.
Proof.
  revert st; induction doctests as [|d ds IH]; intros st.
  - simpl. rewrite !app_nil_r. by destruct st.
  - cbn [fold_left]. rewrite IH, test_step_classify. cbn [failed_doctests
      failed_doctests_results calls]. rewrite <- !app_assoc. f_equal.
    + f_equal. unfold non_passing. cbn [List.filter].
      destruct (negb _); reflexivity.
    + f_equal. unfold non_passing. cbn [List.filter].
      destruct (negb _); reflexivity.
Qed.

(** [test] on a collection that is not empty: the source is executed
    once and the loop of the first input's shape runs over all cases. *)
Lemma test_run_nonempty name code doctests st :
  doctests <> [] ->
  test_run name code doctests = Ok st ->
  exists env,
    exec_code code = Some env /\
    st = fold_left (test_step (convention doctests) (env name)) doctests
           test_start.
Proof.
  intros Hne. unfold test_run. destruct doctests as [|first rest]; [done|].
  destruct (exec_code code) as [env|]; [|discriminate].
  intros Hst. exists env. split; [reflexivity|].
  cbn [convention]. destruct (is_tuple (fst first)); simpl in Hst;
    injection Hst as <-; reflexivity.
Qed.

Lemma test_run_defined name code doctests env :
  exec_code code = Some env ->
  test_run name code doctests =
    Ok (fold_left (test_step (convention doctests) (env name)) doctests
          test_start).
Proof.
  intros He. unfold test_run. destruct doctests as [|first rest];
    [reflexivity|].
  rewrite He. cbn [convention]. by destruct (is_tuple (fst first)).
Qed.

Lemma test_defined name code doctests env :
  exec_code code = Some env ->
  test name code doctests =
    Ok (non_passing (convention doctests) (env name) doctests,
        List.map
          (fun d => (fst d, reported (classify (convention doctests)
                                        (env name) d)))
          (non_passing (convention doctests) (env name) doctests)).
Proof.
  intros He. unfold test. rewrite (test_run_defined _ _ _ _ He).
  rewrite test_loop_classify. reflexivity.
Qed.

Lemma test_empty name code : test name code [] = Ok ([], []).
Proof. reflexivity. Qed.

(** Whenever [test] returns, it has either not run anything (no
    doctests) or executed the source. *)
Lemma test_returns name code doctests failed results :
  test name code doctests = Ok (failed, results) ->
  (doctests = [] /\ failed = [] /\ results = []) \/
  (exists env, exec_code code = Some env).
Proof.
  destruct doctests as [|first rest].
  - rewrite test_empty. intros [= <- <-]. by left.
  - unfold test, test_run. destruct (exec_code code) as [env|];
      [|discriminate]. intros _. right. by exists env.
Qed.

Lemma in_non_passing spread func doctests d :
  In d (non_passing spread func doctests) <->
  In d doctests /\ passes (classify spread func d) = false.
Proof.
  unfold non_passing. rewrite List.filter_In, negb_true_iff. reflexivity.
Qed.

Lemma classify_raised spread func d msg :
  invoke spread func (fst d) = Raised msg ->
  classify spread func d = Errored msg.
Proof. unfold classify. by intros ->. Qed.
Lemma uniform_calls spread f (doctests : list doctest) :
  forallb (fun d => Bool.eqb (is_tuple (fst d)) spread) doctests = true ->
  List.concat
    (List.map (fun d => entered spread (Some f) (fst d)) doctests)
  = List.map (fun d => own_arguments (fst d)) doctests.
Proof.
  induction doctests as [|d ds IH]; [reflexivity|].
  cbn [forallb]. intros [Hd Hds]%andb_true_iff.
  cbn [List.map List.concat]. rewrite (IH Hds).
  apply Bool.eqb_prop in Hd. subst spread.
  destruct d as [[] expected]; reflexivity.
Qed.
End executor_properties.

Section executor_claims.
Context {rt : PyRuntime}.

(** C8.  Whenever [test] returns its two sequences, they are parallel:
    they have the same length and the same inputs in the same order, the
    first is the sequence of the cases that did not pass, each with its
    expected output, and the second reports for each of them the output
    the candidate gave, or the string "Error".  A case whose invocation
    raises is classified [Errored], is in the failed sequence, and is
    reported with the actual value "Error". *)
Theorem C8_errored_case_is_reported
    (function_name : string) (function_code : option string)
    (doctests failed results : list doctest) :
  test function_name function_code doctests = Ok (failed, results) ->
  length failed = length results /\
  List.map fst failed = List.map fst results /\
  forall local_env,
    exec_code function_code = Some local_env ->
    let func := local_env function_name in
    let spread := convention doctests in
    failed = non_passing spread func doctests /\
    results =
      List.map (fun d => (fst d, reported (classify spread func d))) failed /\
    forall d msg,
      In d doctests ->
      invoke spread func (fst d) = Raised msg ->
      classify spread func d = Errored msg /\
      In d failed /\
      In (fst d, VStr "Error") results.
Proof.
  intros Htest.
  destruct (test_returns _ _ _ _ _ Htest) as [(-> & -> & ->) | [env He]].
  - split; [done|]. split; [done|]. intros local_env _. cbn zeta.
    split; [done|]. split; [done|]. intros d msg [].
  - rewrite (test_defined _ _ _ _ He) in Htest. injection Htest as <- <-.
    split; [by rewrite length_map|].
    split; [by rewrite List.map_map|].
    intros local_env He'. assert (local_env = env) as -> by congruence.
    cbn zeta. split; [reflexivity|]. split; [reflexivity|].
    intros d msg Hd Hraise.
    pose proof (classify_raised _ _ _ _ Hraise) as Hc.
    assert (In d (non_passing (convention doctests) (env function_name)
                    doctests)) as Hin.
    { apply in_non_passing. split; [done|]. by rewrite Hc. }
    repeat split; [done | done |].
    apply List.in_map_iff. exists d. split; [|done]. by rewrite Hc.
Qed.

(** C10.  A raising invocation never counts as a pass, whatever the
    expected output: the case is in the failed sequence and is reported
    with "Error"; in particular a case that expects the string "Error"
    is still failed when its invocation raises. *)
Theorem C10_raising_invocation_never_passes
    (function_name : string) (function_code : option string)
    (doctests failed results : list doctest) (local_env : namespace)
    (input : value) (msg : string) :
  test function_name function_code doctests = Ok (failed, results) ->
  exec_code function_code = Some local_env ->
  invoke (convention doctests) (local_env function_name) input = Raised msg ->
  (forall expected,
      In (input, expected) doctests ->
      In (input, expected) failed /\ In (input, VStr "Error") results) /\
  (In (input, VStr "Error") doctests -> In (input, VStr "Error") failed).
Proof.
  intros Htest He Hraise.
  rewrite (test_defined _ _ _ _ He) in Htest. injection Htest as <- <-.
  assert (forall expected,
             In (input, expected) doctests ->
             In (input, expected)
               (non_passing (convention doctests) (local_env function_name)
                  doctests)) as Hfailed.
  { intros expected Hd. apply in_non_passing. split; [done|].
    unfold classify. cbn [fst]. by rewrite Hraise. }
  split; [|by apply Hfailed].
  intros expected Hd. split; [by apply Hfailed|].
  apply List.in_map_iff. exists (input, expected).
  split; [|by apply Hfailed].
  unfold classify. cbn [fst]. by rewrite Hraise.
Qed.

Lemma classify_case_report (spread : bool) (f : pyfun) (d : doctest) :
  let report :=
    case_report f (if spread then unpack (fst d) else Some [fst d]) (snd d) in
  passes (classify spread (Some f) d)
  = match report with Some _ => false | None => true end /\
  forall actual, report = Some actual ->
                 reported (classify spread (Some f) d) = actual.
Proof.
  cbn zeta. unfold classify, invoke, arguments, case_report, call.
  destruct (if spread then unpack (fst d) else Some [fst d]) as [args|].
  - destruct (f args) as [output|msg].
    + destruct (py_eq output (snd d)); split; try done. by intros ? [= <-].
    + split; [done|]. by intros ? [= <-].
  - split; [done|]. by intros ? [= <-].
Qed.

Lemma test_case_reports (spread : bool) (f : pyfun)
    (doctests : list doctest) :
  let report (d : doctest) :=
    case_report f (if spread then unpack (fst d) else Some [fst d]) (snd d) in
  non_passing spread (Some f) doctests
  = List.filter (fun d => match report d with Some _ => true | None => false end)
      doctests /\
  List.map (fun d => (fst d, reported (classify spread (Some f) d)))
    (non_passing spread (Some f) doctests)
  = omap (fun d => (fun actual => (fst d, actual)) <$> report d) doctests.
Proof.
  cbn zeta. unfold non_passing.
  induction doctests as [|d ds [IH1 IH2]]; [done|].
  cbn [List.filter omap list_omap].
  destruct (classify_case_report spread f d) as [Hp Hr].
  cbn zeta in Hp, Hr. rewrite Hp.
  destruct (case_report f (if spread then unpack (fst d) else Some [fst d])
              (snd d)) as [actual|] eqn:Hreport; cbn [negb fmap option_fmap
    option_map List.map].
  - rewrite (Hr actual eq_refl), IH2, IH1. done.
  - by rewrite IH2, IH1.
Qed.

(** C2 (as amended).  The executor checks no shapes.  Once the source
    defines the function, it returns for every collection, mixed or not,
    and what it returns is what the candidate does under the one
    convention taken from the first input: given every input unpacked, or
    given every input whole as its one argument.  A case fails when the
    candidate, so called, raises or returns another value than expected;
    an input that cannot be unpacked leads to no call, and its case is
    failed and reported as "Error".  When all inputs have the same shape,
    each case is decided on the arguments its own shape stands for. *)
Theorem C2_convention_of_first_case
    (function_name : string) (function_code : option string)
    (doctests : list doctest) (local_env : namespace) (f : pyfun) :
  exec_code function_code = Some local_env ->
  local_env function_name = Some f ->
  let spread := convention doctests in
  let given (d : doctest) :=
    if spread then unpack (fst d) else Some [fst d] in
  let report (d : doctest) := case_report f (given d) (snd d) in
  let failed :=
    List.filter (fun d => match report d with Some _ => true | None => false end)
      doctests in
  let results :=
    omap (fun d => (fun actual => (fst d, actual)) <$> report d) doctests in
  test function_name function_code doctests = Ok (failed, results) /\
  test_calls function_name function_code doctests
  = Ok (List.concat (List.map (fun d => option_list (given d)) doctests)) /\
  (forall d,
      In d doctests -> given d = None ->
      In d failed /\ In (fst d, VStr "Error") results) /\
  (uniform_shape doctests = true ->
   forall d, In d doctests -> given d = Some (own_arguments (fst d))).
Proof.
  intros He Hf. cbn zeta.
  destruct (test_case_reports (convention doctests) f doctests) as [H1 H2].
  cbn zeta in H1, H2.
  split; [by rewrite (test_defined _ _ _ _ He), Hf, H2, H1|].
  split.
  { unfold test_calls. rewrite (test_run_defined _ _ _ _ He).
    cbn [mbind result_bind mret result_ret]. f_equal.
    rewrite test_loop_classify, Hf. unfold test_start. cbn [calls app].
    apply (f_equal (@List.concat (list value))), List.map_ext.
    intros d. unfold entered, arguments.
    by destruct (if convention doctests then unpack (fst d) else Some [fst d]). }
  split.
  - intros d Hd Hnone. split.
    + apply List.filter_In. split; [done|]. by rewrite Hnone.
    + apply list_elem_of_In, list_elem_of_omap. exists d.
      split; [by apply list_elem_of_In|]. by rewrite Hnone.
  - unfold uniform_shape. generalize (convention doctests) as spread.
    intros spread Hall d Hd.
    rewrite forallb_forall in Hall. specialize (Hall d Hd).
    apply Bool.eqb_prop in Hall. subst spread.
    by destruct d as [[] expected].
Qed.
End executor_claims.

(** C8, on the collection [[((0, 0), 0)]] and a candidate that raises
    when its second argument is zero. *)
Lemma C8_errored_case_witness :
  test (rt := demo_runtime) "ratio" (Some ratio_src)
    [(VTuple [VInt 0; VInt 0], VInt 0)]
  = Ok ([(VTuple [VInt 0; VInt 0], VInt 0)],
        [(VTuple [VInt 0; VInt 0], VStr "Error")]) /\
  length [(VTuple [VInt 0; VInt 0], VInt 0)]
  = length [(VTuple [VInt 0; VInt 0], VStr "Error")].
Proof.
  split; [reflexivity|].
  exact (proj1 (C8_errored_case_is_reported (rt := demo_runtime)
                  "ratio" (Some ratio_src)
                  [(VTuple [VInt 0; VInt 0], VInt 0)]
                  [(VTuple [VInt 0; VInt 0], VInt 0)]
                  [(VTuple [VInt 0; VInt 0], VStr "Error")] eq_refl)).
Defined.

(** C10, on a case that expects "Error" and whose invocation raises. *)
Lemma C10_raising_invocation_witness :
  test (rt := demo_runtime) "ratio" (Some ratio_src)
    [(VTuple [VInt 0; VInt 0], VStr "Error")]
  = Ok ([(VTuple [VInt 0; VInt 0], VStr "Error")],
        [(VTuple [VInt 0; VInt 0], VStr "Error")]) /\
  In (VTuple [VInt 0; VInt 0], VStr "Error")
     [(VTuple [VInt 0; VInt 0], VStr "Error")].
Proof.
  split; [reflexivity|].
  refine (proj2 (C10_raising_invocation_never_passes (rt := demo_runtime)
                   "ratio" (Some ratio_src)
                   [(VTuple [VInt 0; VInt 0], VStr "Error")]
                   [(VTuple [VInt 0; VInt 0], VStr "Error")]
                   [(VTuple [VInt 0; VInt 0], VStr "Error")]
                   (defines "ratio" ratio)
                   (VTuple [VInt 0; VInt 0]) "b is zero"
                   eq_refl eq_refl eq_refl) _).
  simpl. by left.
Defined.

(** C2 as stated fails: two collections of mixed shape are run, not
    rejected.  In the first the tuple [(1, 2)] is passed as one argument;
    in the second the list [[2, 3]] is unpacked into two.  Both pass. *)
Lemma C2_mixed_shapes_are_run :
  let first_plain :=
    [(VInt 1, VInt 1);
     (VTuple [VInt 1; VInt 2], VTuple [VInt 1; VInt 2])] in
  let first_tuple :=
    [(VTuple [VInt 2; VInt 3], VInt 6);
     (VList [VInt 2; VInt 3], VInt 6)] in
  (uniform_shape first_plain = false /\
   test (rt := demo_runtime) "same" (Some same_src) first_plain
     = Ok ([], []) /\
   test_calls (rt := demo_runtime) "same" (Some same_src) first_plain
     = Ok [[VInt 1]; [VTuple [VInt 1; VInt 2]]]) /\
  (uniform_shape first_tuple = false /\
   test (rt := demo_runtime) "multiply" (Some multiply_times_src) first_tuple
     = Ok ([], []) /\
   test_calls (rt := demo_runtime) "multiply" (Some multiply_times_src)
       first_tuple
     = Ok [[VInt 2; VInt 3]; [VInt 2; VInt 3]]).
Proof. repeat split. Qed.

(** C2 as amended, on the first of these collections: the tuple is given
    whole to the one-argument candidate, and the case passes. *)
Lemma C2_convention_witness :
  test (rt := demo_runtime) "same" (Some same_src)
    [(VInt 1, VInt 1); (VTuple [VInt 1; VInt 2], VTuple [VInt 1; VInt 2])]
  = Ok ([], []).
Proof.
  exact (proj1 (C2_convention_of_first_case (rt := demo_runtime)
                  "same" (Some same_src)
                  [(VInt 1, VInt 1);
                   (VTuple [VInt 1; VInt 2], VTuple [VInt 1; VInt 2])]
                  (defines "same" same) same eq_refl eq_refl)).
Defined.

(** ** The verification loop *)

Section loop_properties.
Context {rt : PyRuntime} {W : Type} {llm : Synthesizer W}.
Variable function_name : string.
Variable doctests : list doctest.

Local Open Scope nat_scope.

Local Abbreviation loop := (while_loop function_name doctests).

(** Split on every branch one iteration of the loop can take. *)
Ltac loop_cases st :=
  cbn [while_loop];
  destruct (i st <? 5)%nat eqn:Hi;
    [ destruct (test function_name (function_code st) doctests)
        as [[failed results]|e] eqn:Htest;
      [ destruct (length failed =? 0)%nat eqn:Hlen;
        [ | destruct (S (i st) <? 5)%nat eqn:Hi';
            [ destruct (repromt_llm (world st) (function_code st)
                          doctests failed) as [[code'|] w'] eqn:Hllm | ] ]
      | ]
    | ];
  cbn [verdict_of final tested i function_code function_passAccuracy world
         requests attempts].

Lemma loop_finishes fuel (st : loop_state (W := W)) :
  i st <= 5 ->
  6 <= fuel + i st ->
  finished (verdict_of (loop fuel st)) = true /\
  attempts (final (loop fuel st)) <= attempts st + (5 - i st) /\
  length (requests (final (loop fuel st)))
  <= length (requests st) + (4 - i st).
Proof.
  revert st. induction fuel as [|fuel IH]; intros st Hi5 Hfuel; [lia|].
  loop_cases st;
    rewrite ?Nat.ltb_lt, ?Nat.ltb_ge in *;
    try (split; [reflexivity | lia]).
  - edestruct IH as (H1 & H2 & H3); [| |split; [exact H1|]];
      cbn [i attempts requests] in *; rewrite ?length_app in *;
      cbn [length] in *; lia.
  - rewrite length_app. cbn [length]. split; [reflexivity | lia].
  - edestruct IH as (H1 & H2 & H3); [| |split; [exact H1|]];
      cbn [i attempts requests] in *; lia.
Qed.

Lemma loop_requests_faithful fuel (st : loop_state (W := W)) :
  Forall (faithful_request function_name doctests) (requests st) ->
  Forall (faithful_request function_name doctests)
    (requests (final (loop fuel st))).
Proof.
  revert st. induction fuel as [|fuel IH]; intros st Hreq; [exact Hreq|].
  assert (forall failed results,
             test function_name (function_code st) doctests
             = Ok (failed, results) ->
             (length failed =? 0)%nat = false ->
             Forall (faithful_request function_name doctests)
               (requests st ++
                  [{| req_function_code := function_code st;
                      req_doctests := doctests;
                      req_failed_doctests := failed |}])) as Hsent.
  { intros failed results Htest Hlen. apply Forall_app. split; [exact Hreq|].
    constructor; [|constructor]. split; [reflexivity|]. split.
    - cbn. intros ->. discriminate.
    - by exists results. }
  loop_cases st; try exact Hreq; try (apply IH; cbn [requests]); eauto.
Qed.

Lemma loop_requests_extend fuel (st : loop_state (W := W)) :
  exists more, requests (final (loop fuel st)) = requests st ++ more.
Proof.
  revert st. induction fuel as [|fuel IH]; intros st.
  - exists []. cbn. by rewrite app_nil_r.
  - loop_cases st; try (exists []; by rewrite app_nil_r).
    + edestruct IH as [more ->]. cbn [requests]. rewrite <- app_assoc.
      by eexists.
    + by eexists.
    + edestruct IH as [more ->]. by eexists.
Qed.

Lemma loop_success fuel (st : loop_state (W := W)) code :
  verdict_of (loop fuel st) = Succeeded code ->
  exists results, test function_name code doctests = Ok ([], results).
Proof.
  revert st. induction fuel as [|fuel IH]; intros st; [discriminate|].
  loop_cases st; try discriminate; try (by apply IH).
  intros [= <-]. apply Nat.eqb_eq in Hlen.
  destruct failed; [|discriminate]. by exists results.
Qed.
(** One iteration that fails some case before the last attempt. *)
Lemma loop_step_regenerate fuel (st : loop_state (W := W)) failed results :
  i st < 4 ->
  test function_name (function_code st) doctests = Ok (failed, results) ->
  failed <> [] ->
  loop (S fuel) st =
    let sent :=
      requests st ++
        [{| req_function_code := function_code st;
            req_doctests := doctests;
            req_failed_doctests := failed |}] in
    let ledger :=
      <[function_code st := length failed]> (function_passAccuracy st) in
    match repromt_llm (world st) (function_code st) doctests failed with
    | (Reply code', w') =>
        loop fuel
          {| i := S (i st);
             function_code := code';
             function_passAccuracy := ledger;
             world := w';
             requests := sent;
             attempts := S (attempts st) |}
    | (Crash, w') =>
        {| verdict_of := Propagated LLMError;
           final :=
             {| i := S (i st);
                function_code := function_code st;
                function_passAccuracy := ledger;
                world := w';
                requests := sent;
                attempts := S (attempts st) |} |}
    end.
Proof.
  intros Hi Htest Hne. cbn [while_loop]. rewrite Htest.
  assert ((i st <? 5) = true) as -> by (apply Nat.ltb_lt; lia).
  assert ((S (i st) <? 5) = true) as -> by (apply Nat.ltb_lt; lia).
  assert ((length failed =? 0) = false) as ->
    by (destruct failed; [done | reflexivity]).
  reflexivity.
Qed.

(** The fifth iteration, failing some case: the ledger is returned. *)
Lemma loop_step_exhaust fuel (st : loop_state (W := W)) failed results :
  i st = 4 ->
  test function_name (function_code st) doctests = Ok (failed, results) ->
  failed <> [] ->
  loop (S (S fuel)) st =
    let ledger :=
      <[function_code st := length failed]> (function_passAccuracy st) in
    {| verdict_of := Exhausted ledger;
       final :=
         {| i := 5;
            function_code := function_code st;
            function_passAccuracy := ledger;
            world := world st;
            requests := requests st;
            attempts := S (attempts st) |} |}.
Proof.
  intros Hi Htest Hne. cbn [while_loop]. rewrite Htest, Hi.
  assert ((length failed =? 0) = false) as ->
    by (destruct failed; [done | reflexivity]).
  reflexivity.
Qed.
End loop_properties.

Section recorded_runs.
Context {rt : PyRuntime} {W : Type}.
Variable llm : Synthesizer W.
Variable function_name : string.
Variable doctests : list doctest.

Local Open Scope nat_scope.

Local Abbreviation recorded_loop :=
  (while_loop (llm := recording llm) function_name doctests).
Local Abbreviation plain_loop :=
  (while_loop (llm := llm) function_name doctests).

(** The log kept beside the calls is what the synthesizer received. *)
Lemma recorded_loop_log fuel : forall st,
  snd (world st) = requests st ->
  snd (world (final (recorded_loop fuel st)))
  = requests (final (recorded_loop fuel st)).
Proof.
  induction fuel as [|fuel IH]; intros st Hlog; [exact Hlog|].
  cbn [while_loop].
  destruct (i st <? 5); [|exact Hlog].
  destruct (test function_name (function_code st) doctests)
    as [[failed results]|e]; [|exact Hlog].
  destruct (length failed =? 0); [exact Hlog|].
  destruct (S (i st) <? 5).
  - cbn [repromt_llm recording].
    destruct (@repromt_llm W llm (fst (world st)) (function_code st)
                doctests failed) as [[code'|] w'].
    + apply IH. cbn [world requests snd]. by rewrite Hlog.
    + cbn [final world requests snd]. by rewrite Hlog.
  - apply IH. exact Hlog.
Qed.

(** Recording changes nothing in the run. *)
Lemma recorded_loop_same_run fuel : forall st,
  verdict_of (recorded_loop fuel st) = verdict_of (plain_loop fuel (unrecorded st)) /\
  unrecorded (final (recorded_loop fuel st))
  = final (plain_loop fuel (unrecorded st)).
Proof.
  induction fuel as [|fuel IH]; intros st; [by split|].
  cbn [while_loop unrecorded i function_code function_passAccuracy world
         requests attempts].
  destruct (i st <? 5); [|by split].
  destruct (test function_name (function_code st) doctests)
    as [[failed results]|e]; [|by split].
  destruct (length failed =? 0); [by split|].
  destruct (S (i st) <? 5).
  - cbn [repromt_llm recording].
    destruct (@repromt_llm W llm (fst (world st)) (function_code st)
                doctests failed) as [[code'|] w'].
    + apply IH.
    + by split.
  - apply IH.
Qed.
End recorded_runs.

Section loop_claims.
Context {rt : PyRuntime}.
Variable function_name : string.
Variable doctests : list doctest.

Local Open Scope nat_scope.


(** C3.  The loop returns a candidate as verified only when [test], run
    on that candidate and the entire collection, reports no failed case:
    every doctest of the collection passes. *)
Theorem C3_success_requires_every_case_to_pass
    {W : Type} {llm : Synthesizer W} (w : W) (code verified : option string) :
  verdict_of (verified_code_gen function_name doctests w code)
  = Succeeded verified ->
  test function_name verified doctests = Ok ([], []) /\
  forall local_env d,
    exec_code verified = Some local_env ->
    In d doctests ->
    classify (convention doctests) (local_env function_name) d = Pass.
Proof.
  intros Hrun. apply loop_success in Hrun as [results Htest].
  destruct (test_returns _ _ _ _ _ Htest) as [(-> & _ & ->) | [env He]].
  - split; [reflexivity|]. intros _ d _ [].
  - rewrite (test_defined _ _ _ _ He) in Htest.
    injection Htest as Hnone Hresults. rewrite Hnone in Hresults.
    cbn in Hresults. subst results.
    split; [by rewrite (test_defined _ _ _ _ He), Hnone|].
    intros local_env d He' Hd. assert (local_env = env) as -> by congruence.
    destruct (passes (classify (convention doctests) (env function_name) d))
      eqn:Hp.
    + by destruct (classify _ _ d).
    + assert (In d (non_passing (convention doctests) (env function_name)
                      doctests)) as Hin by (by apply in_non_passing).
      rewrite Hnone in Hin. destruct Hin.
Qed.

(** C4.  With a synthesizer that is a deterministic pure function of its
    inputs, the loop finishes: it runs the candidate executor at most 5
    times and asks for at most 4 regenerations. *)
Theorem C4_loop_ends_within_five_attempts
    (f : option string -> list doctest -> list doctest -> llm_reply)
    (code : option string) :
  let r :=
    verified_code_gen (llm := pure_synthesizer f) function_name doctests
      tt code in
  finished (verdict_of r) = true /\
  attempts (final r) <= 5 /\
  length (requests (final r)) <= 4.
Proof.
  cbn zeta. unfold verified_code_gen.
  edestruct (loop_finishes (llm := pure_synthesizer f) function_name
               doctests 6) as (H1 & H2 & H3);
    [| |split; [exact H1|]]; cbn [i attempts requests length] in *; lia.
Qed.

(** C5.  When the candidate text fails some doctest and the synthesizer
    answers every request with that same text, the loop is exhausted
    after exactly 5 runs of the candidate executor (and 4 regenerations),
    and the ledger it returns has exactly one entry: the text, mapped to
    the number of cases it fails. *)
Theorem C5_same_incorrect_candidate_exhausts
    {W : Type} {llm : Synthesizer W} (w : W) (text : string)
    (failed results : list doctest) :
  test function_name (Some text) doctests = Ok (failed, results) ->
  failed <> [] ->
  (forall w' code ds fs, fst (repromt_llm w' code ds fs) = Reply (Some text)) ->
  let r := verified_code_gen function_name doctests w (Some text) in
  doctests <> [] /\
  verdict_of r = Exhausted {[ Some text := length failed ]} /\
  size ({[ Some text := length failed ]} : gmap (option string) nat) = 1 /\
  attempts (final r) = 5 /\
  length (requests (final r)) = 4.
Proof.
  intros Htest Hne Hsame. cbn zeta.
  split; [intros ->; rewrite test_empty in Htest; congruence|].
  unfold verified_code_gen.
  do 4 (rewrite (loop_step_regenerate _ _ _ _ failed results);
          [|cbn; lia|exact Htest|exact Hne];
        cbn [i function_code function_passAccuracy world requests attempts];
        match goal with
        | |- context [repromt_llm ?a ?b ?c ?d] =>
            let H := fresh "Hreply" in
            let reply := fresh "reply" in
            let w' := fresh "w'" in
            pose proof (Hsame a b c d) as H;
            destruct (repromt_llm a b c d) as [reply w'];
            cbn [fst] in H; subst reply
        end).
  rewrite (loop_step_exhaust _ _ _ _ failed results);
    [|reflexivity|exact Htest|exact Hne].
  cbn [i function_code function_passAccuracy world requests attempts
         verdict_of final].
  rewrite !insert_insert_eq, insert_empty, map_size_singleton, !length_app.
  cbn [length]. repeat split; reflexivity.
Qed.
End loop_claims.

(** *** The scenarios of the loop *)



(** C3, on the run that succeeds on its second attempt. *)
Lemma C3_success_witness :
  test (rt := demo_runtime) "multiply" (Some multiply_times_src) seed
  = Ok ([], []).
Proof.
  exact (proj1 (C3_success_requires_every_case_to_pass (rt := demo_runtime)
                  (llm := scripted) "multiply" seed
                  [Some multiply_times_src] (Some multiply_plus_src)
                  (Some multiply_times_src) eq_refl)).
Defined.

(** C5, on the seed collection and a model that keeps answering [a+b]. *)
Lemma C5_same_incorrect_candidate_witness :
  verdict_of
    (verified_code_gen (rt := demo_runtime)
       (llm := stubborn multiply_plus_src) "multiply" seed tt
       (Some multiply_plus_src))
  = Exhausted {[ Some multiply_plus_src := 1%nat ]}.
Proof.
  refine (proj1 (proj2 (C5_same_incorrect_candidate_exhausts
                          (rt := demo_runtime)
                          (llm := stubborn multiply_plus_src)
                          "multiply" seed tt multiply_plus_src
                          [(VTuple [VInt 2; VInt 3], VInt 6)]
                          [(VTuple [VInt 2; VInt 3], VInt 5)]
                          eq_refl _ _))).
  - discriminate.
  - intros w' code ds fs. reflexivity.
Defined.

(** ** The suggestion step *)

Lemma suggest_loop_emits user_inputs candidates emitted :
  fold_left (suggest_step user_inputs) candidates emitted
  = emitted ++ emit_new user_inputs emitted candidates.
Proof.
  revert emitted. induction candidates as [|x rest IH]; intros emitted.
  - cbn. by rewrite app_nil_r.
  - cbn [fold_left emit_new]. rewrite IH. unfold suggest_step.
    rewrite <- negb_orb.
    destruct (py_in x user_inputs || py_in x emitted); cbn [negb];
      [reflexivity|]. by rewrite <- app_assoc.
Qed.

Lemma suggested_inputs_contract user_doctests llm crosshair ghostwriter :
  suggested_doctest_inputs_generator user_doctests llm crosshair ghostwriter
  = suggest_contract user_doctests [llm; crosshair; ghostwriter].
Proof.
  unfold suggested_doctest_inputs_generator, suggest_contract.
  cbn [fold_left List.concat]. rewrite !suggest_loop_emits.
  rewrite app_nil_r. cbn [app].
  generalize (List.map fst user_doctests) as ui. intros ui.
  assert (forall l1 l2 em,
             emit_new ui em (l1 ++ l2)
             = emit_new ui em l1 ++ emit_new ui (em ++ emit_new ui em l1) l2)
    as Happ.
  { induction l1 as [|x l1 IH]; intros l2 em.
    - cbn. by rewrite app_nil_r.
    - cbn [app emit_new]. destruct (py_in x ui || py_in x em).
      + apply IH.
      + rewrite IH. cbn [app]. by rewrite <- app_assoc. }
  rewrite !Happ. cbn [app]. by rewrite <- app_assoc.
Qed.

Lemma emit_new_sublist ui emitted candidates :
  sublist (emit_new ui emitted candidates) candidates.
Proof.
  revert emitted. induction candidates as [|x rest IH]; intros emitted.
  - constructor.
  - cbn [emit_new]. destruct (py_in x ui || py_in x emitted).
    + by apply sublist_cons.
    + by apply sublist_skip.
Qed.

Lemma emit_new_fresh ui emitted candidates x :
  In x (emit_new ui emitted candidates) ->
  py_in x ui = false /\ py_in x emitted = false.
Proof.
  revert emitted. induction candidates as [|y rest IH]; intros emitted;
    [intros []|].
  cbn [emit_new]. destruct (py_in y ui || py_in y emitted) eqn:Hy.
  - apply IH.
  - apply orb_false_iff in Hy as [Hy1 Hy2]. intros [<-|Hx]; [done|].
    apply IH in Hx as [Hx1 Hx2]. split; [done|].
    rewrite py_in_app in Hx2. by apply orb_false_iff in Hx2 as [? _].
Qed.

Lemma emit_new_distinct ui emitted candidates :
  distinct_values (emit_new ui emitted candidates) = true.
Proof.
  revert emitted. induction candidates as [|x rest IH]; intros emitted;
    [reflexivity|].
  cbn [emit_new]. destruct (py_in x ui || py_in x emitted); [apply IH|].
  cbn [distinct_values]. rewrite IH, andb_true_r. apply negb_true_iff.
  apply py_in_false. intros y Hy.
  apply emit_new_fresh in Hy as [_ Hy]. rewrite py_in_app in Hy.
  apply orb_false_iff in Hy as [_ Hy]. cbn in Hy.
  rewrite orb_false_r in Hy. by rewrite py_eq_sym.
Qed.

Lemma emit_new_complete ui emitted candidates x :
  In x candidates ->
  py_in x ui = false ->
  py_in x (emitted ++ emit_new ui emitted candidates) = true.
Proof.
  revert emitted. induction candidates as [|y rest IH]; intros emitted;
    [intros []|].
  intros Hx Hui. cbn [emit_new].
  destruct (py_in y ui || py_in y emitted) eqn:Hy.
  - destruct Hx as [->|Hx]; [|by apply IH].
    rewrite Hui in Hy. cbn in Hy. rewrite py_in_app, Hy. reflexivity.
  - destruct Hx as [->|Hx].
    + rewrite py_in_app. cbn. rewrite py_eq_refl. cbn. apply orb_true_r.
    + specialize (IH (emitted ++ [y]) Hx Hui).
      by rewrite <- app_assoc in IH.
Qed.

(** A list of new, pairwise different inputs is emitted as it is. *)
Lemma emit_new_fixed ui emitted l :
  (forall x, In x l -> py_in x ui = false /\ py_in x emitted = false) ->
  distinct_values l = true ->
  emit_new ui emitted l = l.
Proof.
  revert emitted. induction l as [|x rest IH]; intros emitted Hnew Hdist;
    [reflexivity|].
  cbn [distinct_values] in Hdist. apply andb_true_iff in Hdist as [Hx Hrest].
  apply negb_true_iff in Hx.
  destruct (Hnew x (or_introl eq_refl)) as [Hx1 Hx2].
  cbn [emit_new]. rewrite Hx1, Hx2. cbn. f_equal. apply IH; [|done].
  intros y Hy. destruct (Hnew y (or_intror Hy)) as [Hy1 Hy2].
  split; [done|]. rewrite py_in_app, Hy2. cbn. rewrite orb_false_r.
  rewrite py_eq_sym. revert Hy. by apply py_in_false.
Qed.

(** C7.  The suggestion step is the function its contract describes: it
    goes through the candidates in the order the sources are consulted and
    emits those that equal, by value, no input of a user case and nothing
    emitted before.  Hence its result is a subsequence of the candidates,
    none of its entries equals an input of a user case, no two of its
    entries are equal, and every candidate that equals no user input is
    represented in it.  It is a function of its arguments, so two calls with
    the same arguments agree; and suggesting again from its own result
    gives that result back. *)
Theorem C7_suggestions_are_new_and_distinct
    (user_doctests : list doctest)
    (llm_doctests crosshair_doctests ghostwriter_doctests : list value) :
  let user_inputs := List.map fst user_doctests in
  let sources := [llm_doctests; crosshair_doctests; ghostwriter_doctests] in
  let suggested :=
    suggested_doctest_inputs_generator user_doctests llm_doctests
      crosshair_doctests ghostwriter_doctests in
  suggested = suggest_contract user_doctests sources /\
  sublist suggested (List.concat sources) /\
  (forall x, In x suggested -> py_in x user_inputs = false) /\
  distinct_values suggested = true /\
  (forall x,
      In x (List.concat sources) ->
      py_in x user_inputs = false ->
      py_in x suggested = true) /\
  suggested_doctest_inputs_generator user_doctests suggested [] [] = suggested.
Proof.
  cbn zeta. rewrite !suggested_inputs_contract. unfold suggest_contract.
  set (ui := List.map fst user_doctests).
  set (cands := List.concat [llm_doctests; crosshair_doctests;
                             ghostwriter_doctests]).
  split; [reflexivity|].
  split; [apply emit_new_sublist|].
  split; [intros x Hx; by apply emit_new_fresh in Hx as [? _]|].
  split; [apply emit_new_distinct|].
  split; [intros x Hx Hui; by apply (emit_new_complete ui [] cands)|].
  cbn [List.concat]. rewrite !app_nil_r.
  apply emit_new_fixed; [|apply emit_new_distinct].
  intros x Hx. by apply emit_new_fresh in Hx as [? _].
Qed.

(** C7, on a user case with input 1: [True] equals it and is left out,
    and 2 is suggested once. *)
Lemma C7_suggestions_witness :
  py_in (VInt 3)
    (suggested_doctest_inputs_generator [(VInt 1, VInt 1)]
       [VBool true; VInt 2; VInt 2] [VInt 3; VInt 2] [])
  = true.
Proof.
  refine (proj1 (proj2 (proj2 (proj2 (proj2
            (C7_suggestions_are_new_and_distinct [(VInt 1, VInt 1)]
               [VBool true; VInt 2; VInt 2] [VInt 3; VInt 2] [])))))
            (VInt 3) _ eq_refl).
  simpl. auto.
Defined.

(** ** Observing the candidate on the suggested inputs *)

Section materialization.
Context {rt : PyRuntime}.

Lemma observe_loop spread function_ref inputs suggested :
  fold_left (observe_step spread function_ref) inputs suggested
  = suggested ++
      List.map (fun x => (x, observed spread function_ref x)) inputs.
Proof.
  revert suggested. induction inputs as [|x rest IH]; intros suggested.
  - cbn. by rewrite app_nil_r.
  - cbn [fold_left List.map]. rewrite IH. unfold observe_step, observed.
    destruct (invoke spread function_ref x); by rewrite <- app_assoc.
Qed.

(** Once the source defines, the suggested doctests are the suggested
    inputs, in their order, each with what was observed on it. *)
Lemma suggested_doctests_keep_inputs inputs function_name function_code
    namespace :
  exec_code (Some function_code) = Some namespace ->
  exists suggested,
    suggested_doctests_list_generator inputs function_name function_code
    = Ok suggested /\
    List.map fst suggested = inputs /\
    length suggested = length inputs /\
    forall k x,
      inputs !! k = Some x ->
      exists output, suggested !! k = Some (x, output).
Proof.
  intros He.
  exists (List.map
            (fun x => (x, observed (match inputs with
                                    | [] => false
                                    | first :: _ => is_tuple first
                                    end) (namespace function_name) x))
            inputs).
  split; [|split; [|split]].
  - unfold suggested_doctests_list_generator.
    destruct inputs as [|first rest]; [reflexivity|]. rewrite He.
    destruct (is_tuple first); cbn [negb]; by rewrite observe_loop.
  - rewrite List.map_map. cbn [fst]. apply List.map_id.
  - apply length_map.
  - intros k x Hk. eexists. rewrite list_lookup_fmap, Hk. reflexivity.
Qed.
End materialization.

(** C6.  The candidate raises on the input [(1, 0)].  The suggested doctest
    pairs that input with the text "Error: b is zero", which is not the
    string "Error" that [test] reports for a raising case and that
    [final_doctests_generator] looks for: once accepted, the case is kept
    among the final doctests, where a case with the output "Error" is
    dropped. *)
Theorem C6_raising_input_gets_the_message :
  let inputs := [VTuple [VInt 1; VInt 0]; VTuple [VInt 4; VInt 2]] in
  let accepted : gmap string string :=
    <["confirmation_0" := "accept"]> (<["confirmation_1" := "accept"]> ∅) in
  suggested_doctests_list_generator (rt := demo_runtime) inputs "ratio"
    ratio_src
  = Ok [(VTuple [VInt 1; VInt 0], VStr "Error: b is zero");
        (VTuple [VInt 4; VInt 2], VInt 2)] /\
  py_eq (VStr "Error: b is zero") (VStr "Error") = false /\
  test (rt := demo_runtime) "ratio" (Some ratio_src)
    [(VTuple [VInt 1; VInt 0], VInt 0)]
  = Ok ([(VTuple [VInt 1; VInt 0], VInt 0)],
        [(VTuple [VInt 1; VInt 0], VStr "Error")]) /\
  final_doctests_generator (rt := demo_runtime) accepted []
    [(VTuple [VInt 1; VInt 0], VStr "Error: b is zero");
     (VTuple [VInt 4; VInt 2], VInt 2)] "int"
  = Ok ([(VTuple [VInt 1; VInt 0], VStr "Error: b is zero");
         (VTuple [VInt 4; VInt 2], VInt 2)], true) /\
  final_doctests_generator (rt := demo_runtime) accepted []
    [(VTuple [VInt 1; VInt 0], VStr "Error");
     (VTuple [VInt 4; VInt 2], VInt 2)] "int"
  = Ok ([(VTuple [VInt 4; VInt 2], VInt 2)], true).
Proof. repeat split. Qed.

(** ** Reading the user's doctests *)

Section user_doctests.
Context {rt : PyRuntime}.

Local Open Scope nat_scope.

Lemma eval_text_malformed function_details key text :
  function_details !! key = Some text ->
  malformed_field function_details key = true ->
  eval_text text = Raise EvalError.
Proof.
  unfold malformed_field, eval_text. intros ->.
  by destruct (py_eval text).
Qed.

Lemma eval_text_raises function_details key text e :
  function_details !! key = Some text ->
  exiting_field function_details key = false ->
  eval_text text = Raise e ->
  is_Exception e = true.
Proof.
  unfold exiting_field, eval_text. intros ->.
  destruct (py_eval text); [discriminate| |discriminate].
  by intros _ [= <-].
Qed.

(** The loop stops with an [Exception] at the first field that is absent
    or on whose text [eval] raises one, when no text evaluated up to there
    leaves with an exception outside [Exception].  The fields after it are
    not read. *)
Lemma parse_loop_malformed function_details count : forall i doctests k,
  i <= k < i + count ->
  malformed_field function_details (doctest_key k) = true \/
  malformed_field function_details (output_key k) = true ->
  (forall j, i <= j <= k ->
     exiting_field function_details (doctest_key j) = false /\
     exiting_field function_details (output_key j) = false) ->
  exists e, parse_loop function_details i count doctests = Raise e /\
            is_Exception e = true.
Proof.
  induction count as [|count IH]; intros i doctests k Hk Hbad Hexit; [lia|].
  cbn [parse_loop]. unfold getitem.
  destruct (Hexit i ltac:(lia)) as [Hin Hout].
  destruct (function_details !! doctest_key i) as [input_str|] eqn:Ei;
    cbn [mbind result_bind]; [|by eexists].
  destruct (function_details !! output_key i) as [output_str|] eqn:Eo;
    cbn [mbind result_bind]; [|by eexists].
  destruct (eval_text input_str) as [input_val|e1] eqn:E1;
    cbn [mbind result_bind];
    [|exists e1; split; [done|exact (eval_text_raises _ _ _ _ Ei Hin E1)]].
  destruct (eval_text output_str) as [output_val|e2] eqn:E2;
    cbn [mbind result_bind];
    [|exists e2; split; [done|exact (eval_text_raises _ _ _ _ Eo Hout E2)]].
  destruct (decide (k = i)) as [->|Hne].
  - destruct Hbad as [Hbad|Hbad].
    + rewrite (eval_text_malformed _ _ _ Ei Hbad) in E1. discriminate.
    + rewrite (eval_text_malformed _ _ _ Eo Hbad) in E2. discriminate.
  - apply (IH (S i) _ k); [lia | exact Hbad |].
    intros j Hj. apply Hexit. lia.
Qed.

(** Where the handler of [user_doctests_generator] does apply: the count
    of doctests is present and [int] reads it, a field among the doctests
    it counts is absent or [eval] raises an [Exception] on its text, and
    no text evaluated up to that field leaves with an exception outside
    [Exception].  The operation then returns the empty list.  Texts are
    evaluated without effect on the record. *)
Lemma malformed_doctest_gives_empty_list
    (function_details : gmap string string) (text : string)
    (num_tests : Z) (k : nat) :
  function_details !! "number_of_doctests" = Some text ->
  py_int text = Some num_tests ->
  1 <= k <= Z.to_nat num_tests ->
  malformed_field function_details (doctest_key k) = true \/
  malformed_field function_details (output_key k) = true ->
  (forall j, 1 <= j <= k ->
     exiting_field function_details (doctest_key j) = false /\
     exiting_field function_details (output_key j) = false) ->
  user_doctests_generator function_details = Ok [].
Proof.
  intros Hcount Hint Hk Hbad Hexit. unfold user_doctests_generator, getitem.
  rewrite Hcount. cbn. rewrite Hint. unfold try_except_Exception.
  destruct (parse_loop_malformed function_details (Z.to_nat num_tests)
              1 [] k ltac:(lia) Hbad Hexit) as (e & -> & ->).
  reflexivity.
Qed.
End user_doctests.

(** C9.  The operation raises on records whose doctest text is malformed,
    where its description has it return the empty list when the user
    provides nothing or invalid Python objects.  The count of doctests is
    read by [int] before the [try]: left empty beside a doctest input that
    does not parse, it raises [ValueError].  The handler is
    [except Exception]: a doctest input on which [eval] exits raises
    [SystemExit] through it.  Only with a count that [int] reads, and an
    [Exception] from the text, is the empty list returned. *)
Theorem C9_malformed_text_can_raise :
  user_doctests_generator (rt := demo_runtime) (form "" "(2, 3" "6")
  = Raise (ValueError "") /\
  user_doctests_generator (rt := demo_runtime)
    (form "1" "__import__('sys').exit()" "6")
  = Raise SystemExit /\
  user_doctests_generator (rt := demo_runtime) (form "1" "(2, 3" "6")
  = Ok [].
Proof. repeat split. Qed.

(** A form whose only doctest input does not parse gives the empty
    list. *)
Lemma malformed_doctest_gives_empty_list_witness :
  user_doctests_generator (rt := demo_runtime) (form "1" "(2, 3" "6") = Ok [].
Proof.
  refine (malformed_doctest_gives_empty_list (rt := demo_runtime)
            (form "1" "(2, 3" "6") "1" 1%Z 1%nat eq_refl eq_refl _ _ _).
  - simpl. lia.
  - left. reflexivity.
  - intros j Hj. assert (j = 1%nat) as -> by lia.
    split; reflexivity.
Defined.

(** * Further properties of the code *)

(** ** More on the candidate executor *)

Section executor_extras.
Context {rt : PyRuntime}.

Lemma invoke_missing_function spread x :
  exists msg, invoke spread None x = Raised msg.
Proof.
  unfold invoke. destruct (arguments spread x); cbn [call]; by eexists.
Qed.

Lemma classify_missing_function spread d :
  exists msg, classify spread None d = Errored msg.
Proof.
  unfold classify.
  destruct (invoke_missing_function spread (fst d)) as [msg ->]. by eexists.
Qed.

Lemma non_passing_missing_function spread (doctests : list doctest) :
  non_passing spread None doctests = doctests /\
  List.map (fun d => (fst d, reported (classify spread None d))) doctests
  = List.map (fun d => (fst d, VStr "Error")) doctests.
Proof.
  unfold non_passing. induction doctests as [|d ds [IH1 IH2]]; [done|].
  cbn [List.filter List.map].
  destruct (classify_missing_function spread d) as [msg ->].
  cbn [passes negb reported]. by rewrite IH1, IH2.
Qed.

(** X1.  When the source runs but does not define the function under the
    given name, [test] does not raise: every case is reported as failed,
    each with the actual value "Error". *)
Theorem test_missing_function_fails_every_case
    (function_name : string) (function_code : option string)
    (doctests : list doctest) (local_env : namespace) :
  exec_code function_code = Some local_env ->
  local_env function_name = None ->
  test function_name function_code doctests
  = Ok (doctests, List.map (fun d => (fst d, VStr "Error")) doctests).
Proof.
  intros He Hnone. rewrite (test_defined _ _ _ _ He), Hnone.
  destruct (non_passing_missing_function (convention doctests) doctests)
    as [-> ->]. reflexivity.
Qed.

Lemma convention_app (doctests extra : list doctest) :
  doctests <> [] -> convention (doctests ++ extra) = convention doctests.
Proof. by destruct doctests. Qed.

(** X2.  Adding cases at the end of a collection that is not empty keeps
    what [test] reports for the cases that were there: the two sequences of
    the smaller collection are prefixes of those of the larger one.  So a
    candidate that passes the enlarged collection passes the original. *)
Theorem test_enlarged_collection_keeps_failures
    (function_name : string) (function_code : option string)
    (doctests extra failed results : list doctest) :
  doctests <> [] ->
  test function_name function_code (doctests ++ extra) = Ok (failed, results) ->
  exists failed0 results0,
    test function_name function_code doctests = Ok (failed0, results0) /\
    failed0 `prefix_of` failed /\
    results0 `prefix_of` results /\
    (failed = [] -> failed0 = []).
Proof.
  intros Hne Htest.
  destruct (test_returns _ _ _ _ _ Htest) as [(Happ & _) | [env He]].
  { apply app_eq_nil in Happ as [? _]. done. }
  rewrite (test_defined _ _ _ _ He) in Htest. injection Htest as <- <-.
  rewrite (test_defined _ _ _ _ He), (convention_app _ _ Hne).
  eexists _, _. split; [reflexivity|].
  unfold non_passing. rewrite List.filter_app, List.map_app.
  split; [by eexists|]. split; [by eexists|].
  intros Hnil. by apply app_eq_nil in Hnil as [? _].
Qed.
End executor_extras.

(** X1, on a source that defines [multiply] and is asked for [product]. *)
Lemma test_missing_function_witness :
  test (rt := demo_runtime) "product" (Some multiply_times_src) seed
  = Ok (seed, [(VTuple [VInt 2; VInt 3], VStr "Error")]).
Proof.
  exact (test_missing_function_fails_every_case (rt := demo_runtime)
           "product" (Some multiply_times_src) seed
           (defines "multiply" multiply_times) eq_refl eq_refl).
Defined.

(** X2, on the seed collection enlarged by the case [((0, 0), 1)]. *)
Lemma test_enlarged_collection_witness :
  exists failed0 results0,
    test (rt := demo_runtime) "multiply" (Some multiply_times_src) seed
    = Ok (failed0, results0) /\
    failed0 `prefix_of` [(VTuple [VInt 0; VInt 0], VInt 1)].
Proof.
  destruct (test_enlarged_collection_keeps_failures (rt := demo_runtime)
              "multiply" (Some multiply_times_src) seed
              [(VTuple [VInt 0; VInt 0], VInt 1)]
              [(VTuple [VInt 0; VInt 0], VInt 1)]
              [(VTuple [VInt 0; VInt 0], VInt 0)])
    as (failed0 & results0 & H1 & H2 & _); [discriminate | reflexivity |].
  by exists failed0, results0.
Defined.

(** ** More on the verification loop *)

Section loop_extras.
Context {rt : PyRuntime} {W : Type} {llm : Synthesizer W}.
Variable function_name : string.
Variable doctests : list doctest.

Local Open Scope nat_scope.

Local Abbreviation loop := (while_loop function_name doctests).

Ltac loop_split st :=
  cbn [while_loop];
  destruct (i st <? 5) eqn:Hi;
    [ destruct (test function_name (function_code st) doctests)
        as [[failed results]|e] eqn:Htest;
      [ destruct (length failed =? 0) eqn:Hlen;
        [ | destruct (S (i st) <? 5) eqn:Hi';
            [ destruct (repromt_llm (world st) (function_code st)
                          doctests failed) as [[code'|] w'] eqn:Hllm | ] ]
      | ]
    | ];
  cbn [verdict_of final tested i function_code function_passAccuracy world
         requests attempts].

(** X3.  A candidate that passes every case on the first run is returned
    at once: [test] has run once, no regeneration has been asked for and
    the model has not been consulted.  With an empty collection this holds
    for any code, which is then not even executed. *)
Theorem first_candidate_that_passes_is_returned
    (w : W) (code : option string) (results : list doctest) :
  test function_name code doctests = Ok ([], results) ->
  let r := verified_code_gen function_name doctests w code in
  verdict_of r = Succeeded code /\
  attempts (final r) = 1 /\
  requests (final r) = [] /\
  world (final r) = w /\
  (doctests = [] -> forall code', test function_name code' doctests = Ok ([], [])).
Proof.
  intros Htest. cbn zeta. unfold verified_code_gen.
  cbn [while_loop i function_code Nat.ltb Nat.leb]. rewrite Htest.
  cbn. repeat split. by intros ->.
Qed.

(** X4.  The code a regeneration returns is run as it comes.  When the
    first candidate fails a case and the model answers with nothing, or
    with a text that does not execute, the loop raises on its second run
    of [test] instead of returning the ledger. *)
Theorem regeneration_that_does_not_execute_raises
    (w w' : W) (code answer : option string) (failed results : list doctest) :
  test function_name code doctests = Ok (failed, results) ->
  failed <> [] ->
  repromt_llm w code doctests failed = (Reply answer, w') ->
  exec_code answer = None ->
  let r := verified_code_gen function_name doctests w code in
  verdict_of r = Propagated ExecError /\
  attempts (final r) = 2 /\
  function_passAccuracy (final r) = {[ code := length failed ]}.
Proof.
  intros Htest Hne Hllm Hexec. cbn zeta. unfold verified_code_gen.
  rewrite (loop_step_regenerate _ _ _ _ failed results);
    [|cbn; lia|exact Htest|exact Hne].
  cbn [i function_code function_passAccuracy world requests attempts].
  rewrite Hllm. cbn [while_loop i function_code Nat.ltb Nat.leb].
  assert (test function_name answer doctests = Raise ExecError) as ->.
  { unfold test, test_run. destruct doctests as [|first rest].
    - rewrite test_empty in Htest. congruence.
    - by rewrite Hexec. }
  cbn. by rewrite insert_empty.
Qed.

Lemma ledger_sound_insert ledger code failed results :
  ledger_sound function_name doctests ledger ->
  test function_name code doctests = Ok (failed, results) ->
  (length failed =? 0) = false ->
  ledger_sound function_name doctests (<[code := length failed]> ledger).
Proof.
  intros Hsound Htest Hlen code' n. rewrite lookup_insert.
  case_decide as Heq.
  - intros [= <-]. subst code'. apply Nat.eqb_neq in Hlen.
    split; [lia|]. by exists failed, results.
  - apply Hsound.
Qed.

Lemma loop_exhausted fuel (st : loop_state (W := W)) ledger :
  i st <= 5 ->
  attempts st = i st ->
  length (requests st) = Nat.min (i st) 4 ->
  size (function_passAccuracy st) <= i st ->
  (0 < i st -> function_passAccuracy st <> ∅) ->
  ledger_sound function_name doctests (function_passAccuracy st) ->
  verdict_of (loop fuel st) = Exhausted ledger ->
  attempts (final (loop fuel st)) = 5 /\
  length (requests (final (loop fuel st))) = 4 /\
  ledger <> ∅ /\
  size ledger <= 5 /\
  ledger_sound function_name doctests ledger.
Proof.
  revert st. induction fuel as [|fuel IH];
    intros st Hi5 Hatt Hreq Hsize Hne Hsound; [discriminate|].
  assert (forall failed : list doctest,
             size (<[function_code st := length failed]>
                     (function_passAccuracy st)) <= S (i st)) as Hsize'.
  { intros failed.
    destruct (function_passAccuracy st !! function_code st) eqn:Hl.
    - rewrite map_size_insert_Some by eauto. lia.
    - rewrite map_size_insert_None by done. lia. }
  loop_split st; rewrite ?Nat.ltb_lt, ?Nat.ltb_ge in *; try discriminate.
  - apply IH; cbn [i attempts requests function_passAccuracy];
      rewrite ?length_app; cbn [length]; try lia; try apply Hsize'.
    + intros _. apply insert_non_empty.
    + by eapply ledger_sound_insert.
  - apply IH; cbn [i attempts requests function_passAccuracy];
      try lia; try apply Hsize'.
    + intros _. apply insert_non_empty.
    + by eapply ledger_sound_insert.
  - intros [= <-]. assert (i st = 5) as Hfive by lia.
    rewrite Hfive in *. cbn in Hreq.
    split; [done|]. split; [done|]. split; [apply Hne; lia|]. by split.
Qed.

(** X5.  When the loop gives up, it has run [test] exactly 5 times and
    asked for exactly 4 regenerations, and the ledger it returns is not
    empty, has at most 5 entries, and maps each of its candidates to the
    number of cases [test] reports as failed for it, which is not zero. *)
Theorem exhausted_ledger_counts_failures
    (w : W) (code : option string) (ledger : gmap (option string) nat) :
  let r := verified_code_gen function_name doctests w code in
  verdict_of r = Exhausted ledger ->
  attempts (final r) = 5 /\
  length (requests (final r)) = 4 /\
  ledger <> ∅ /\
  size ledger <= 5 /\
  forall candidate n,
    ledger !! candidate = Some n ->
    0 < n /\
    exists failed results,
      test function_name candidate doctests = Ok (failed, results) /\
      length failed = n.
Proof.
  cbn zeta. unfold verified_code_gen. intros Hrun.
  eapply loop_exhausted in Hrun; cbn [i attempts requests
    function_passAccuracy length Nat.min]; try done; try lia.
Qed.
End loop_extras.

(** X3, on the seed collection and the candidate [a*b]. *)
Lemma first_candidate_witness :
  verdict_of
    (verified_code_gen (rt := demo_runtime) (llm := scripted) "multiply" seed
       [] (Some multiply_times_src))
  = Succeeded (Some multiply_times_src).
Proof.
  exact (proj1 (first_candidate_that_passes_is_returned (rt := demo_runtime)
                  (llm := scripted) "multiply" seed []
                  (Some multiply_times_src) [] eq_refl)).
Defined.

(** X4, on the candidate [a+b] and a model that answers with nothing. *)
Lemma regeneration_failure_witness :
  verdict_of
    (verified_code_gen (rt := demo_runtime) (llm := scripted) "multiply" seed
       [None] (Some multiply_plus_src))
  = Propagated ExecError.
Proof.
  exact (proj1 (regeneration_that_does_not_execute_raises
                  (rt := demo_runtime) (llm := scripted) "multiply" seed
                  [None] [] (Some multiply_plus_src) None
                  [(VTuple [VInt 2; VInt 3], VInt 6)]
                  [(VTuple [VInt 2; VInt 3], VInt 5)]
                  eq_refl ltac:(discriminate) eq_refl eq_refl)).
Defined.

(** X5, on the candidate [a+b] and a model that keeps answering [a+b]. *)
Lemma exhausted_ledger_witness :
  attempts
    (final
       (verified_code_gen (rt := demo_runtime)
          (llm := stubborn multiply_plus_src) "multiply" seed tt
          (Some multiply_plus_src)))
  = 5%nat.
Proof.
  exact (proj1 (exhausted_ledger_counts_failures (rt := demo_runtime)
                  (llm := stubborn multiply_plus_src) "multiply" seed tt
                  (Some multiply_plus_src)
                  {[ Some multiply_plus_src := 1%nat ]} eq_refl)).
Defined.

(** ** More on building the doctest set *)

Lemma suggest_sources ui (sources : list (list value)) suggested :
  fold_left
    (fun suggested_doctests doctest_list =>
       fold_left (suggest_step ui) doctest_list suggested_doctests)
    sources suggested
  = fold_left (suggest_step ui) (List.concat sources) suggested.
Proof.
  revert suggested. induction sources as [|l sources IH]; intros suggested;
    [reflexivity|].
  cbn [fold_left List.concat]. by rewrite fold_left_app, IH.
Qed.

(** X6.  In the refutation flow the model's inputs are scanned before the
    entries of the existing collection, with the same filter as in the
    suggestion step: the result is what the suggestion step gives for these
    two sources, a subsequence of them in which no entry equals the input
    of a user case and no two entries are equal. *)
Theorem refuted_inputs_are_new_and_distinct
    (doctests llm_doctests : list value) (user_doctests : list doctest) :
  let refuted :=
    refuted_doctest_inputs_generator doctests llm_doctests user_doctests in
  refuted
  = suggested_doctest_inputs_generator user_doctests llm_doctests doctests [] /\
  refuted = suggest_contract user_doctests [llm_doctests; doctests] /\
  sublist refuted (llm_doctests ++ doctests) /\
  (forall x, In x refuted -> py_in x (List.map fst user_doctests) = false) /\
  distinct_values refuted = true.
Proof.
  cbn zeta.
  assert (refuted_doctest_inputs_generator doctests llm_doctests user_doctests
          = suggest_contract user_doctests [llm_doctests; doctests]) as Hc.
  { unfold refuted_doctest_inputs_generator, suggest_contract.
    by rewrite suggest_sources, suggest_loop_emits. }
  split.
  - rewrite Hc. unfold suggested_doctest_inputs_generator, suggest_contract.
    rewrite suggest_sources, suggest_loop_emits. cbn [List.concat app].
    by rewrite !app_nil_r.
  - split; [exact Hc|]. rewrite Hc. unfold suggest_contract.
    cbn [List.concat]. rewrite app_nil_r.
    split; [apply emit_new_sublist|].
    split; [|apply emit_new_distinct].
    intros x Hx. by apply emit_new_fresh in Hx as [? _].
Qed.

(** X6, on a user case with input 1 and an existing entry equal to it. *)
Lemma refuted_inputs_witness :
  py_in (VInt 1)
    (List.map fst [(VInt 1, VInt 1)]) = true /\
  ~ In (VBool true)
      (refuted_doctest_inputs_generator [VBool true; VInt 4] [VInt 2]
         [(VInt 1, VInt 1)]).
Proof.
  split; [reflexivity|]. intros Hin.
  pose proof (proj1 (proj2 (proj2 (proj2
    (refuted_inputs_are_new_and_distinct [VBool true; VInt 4] [VInt 2]
       [(VInt 1, VInt 1)])))) (VBool true) Hin) as Hnew.
  discriminate Hnew.
Defined.

Section final_collections.
Context {rt : PyRuntime}.

Lemma getitem_Ok (d : gmap string string) key text :
  getitem d key = Ok text -> d !! key = Some text.
Proof. unfold getitem. destruct (d !! key); by intros [= <-]. Qed.

Lemma all_accepted_cons details i n :
  details !! ("confirmation_" +:+ pretty i) = Some "accept" ->
  all_accepted details (S i) n ->
  all_accepted details i (S n).
Proof.
  intros H0 Hrest [|k] Hk.
  - by rewrite Nat.add_0_r.
  - replace (i + S k)%nat with (S i + k)%nat by lia. apply Hrest. lia.
Qed.

Lemma confirm_loop_adds details return_type suggested :
  forall i new flag new' flag',
    confirm_loop details return_type i suggested new flag = Ok (new', flag') ->
    exists added,
      new' = new ++ added /\
      sublist (List.map fst added) (List.map fst suggested) /\
      (flag' = true ->
       flag = true /\
       all_accepted details i (length suggested) /\
       added = List.filter (fun d => py_ne (snd d) (VStr "Error")) suggested).
Proof.
  induction suggested as [|d rest IH]; intros i new flag new' flag'.
  - cbn. intros [= <- <-]. exists []. rewrite app_nil_r.
    repeat split; try done. intros k Hk. lia.
  - cbn [confirm_loop].
    destruct (getitem details ("confirmation_" +:+ pretty i))
      as [confirmation|e] eqn:Hconf; cbn [mbind result_bind]; [|discriminate].
    apply getitem_Ok in Hconf.
    destruct (String.eqb confirmation "accept") eqn:Haccept.
    + apply String.eqb_eq in Haccept. subst confirmation.
      destruct (py_ne (snd d) (VStr "Error")) eqn:Hne; intros Hloop;
        apply IH in Hloop as (added & -> & Hsub & Hflag).
      * exists (d :: added). rewrite <- app_assoc. split; [done|].
        split; [by apply sublist_skip|]. intros Hf.
        destruct (Hflag Hf) as (? & ? & ->). cbn [List.filter]. rewrite Hne.
        repeat split; try done. by apply all_accepted_cons.
      * exists added. split; [done|].
        split; [by apply sublist_cons|]. intros Hf.
        destruct (Hflag Hf) as (? & ? & ->). cbn [List.filter]. rewrite Hne.
        repeat split; try done. by apply all_accepted_cons.
    + destruct (getitem details ("output_" +:+ pretty i))
        as [output|e] eqn:Hout; cbn [mbind result_bind]; [|discriminate].
      destruct (negb (String.eqb output "Error")).
      * destruct (String.eqb return_type "str").
        -- intros Hloop. apply IH in Hloop as (added & -> & Hsub & Hflag).
           exists ((fst d, VStr output) :: added). rewrite <- app_assoc.
           split; [done|]. split; [by apply sublist_skip|].
           intros Hf. by destruct (Hflag Hf).
        -- destruct (eval_text output) as [output_val|e]; cbn [mbind result_bind];
             [|discriminate].
           intros Hloop. apply IH in Hloop as (added & -> & Hsub & Hflag).
           exists ((fst d, output_val) :: added). rewrite <- app_assoc.
           split; [done|]. split; [by apply sublist_skip|].
           intros Hf. by destruct (Hflag Hf).
      * intros Hloop. apply IH in Hloop as (added & -> & Hsub & Hflag).
        exists added. split; [done|]. split; [by apply sublist_cons|].
        intros Hf. by destruct (Hflag Hf).
Qed.

(** X7.  Whenever [final_doctests_generator] returns, the final collection
    begins with all the user's doctests, in their order, and the inputs of
    the cases after them are suggested inputs, in the order of the
    suggestions.  The flag is true only when every suggestion was
    accepted; the added cases are then the suggestions themselves, less
    those whose output is the string "Error". *)
Theorem final_collection_extends_user_doctests
    (doctests_details : gmap string string)
    (user_doctests suggested_doctests doctests : list doctest)
    (return_type : string) (all_doctests_passed : bool) :
  final_doctests_generator doctests_details user_doctests suggested_doctests
    return_type
  = Ok (doctests, all_doctests_passed) ->
  exists new_doctests,
    doctests = user_doctests ++ new_doctests /\
    sublist (List.map fst new_doctests) (List.map fst suggested_doctests) /\
    (all_doctests_passed = true ->
     all_accepted doctests_details 0 (length suggested_doctests) /\
     new_doctests
     = List.filter (fun d => py_ne (snd d) (VStr "Error")) suggested_doctests).
Proof.
  unfold final_doctests_generator.
  destruct (confirm_loop doctests_details return_type 0 suggested_doctests []
              true) as [[new flag]|e] eqn:Hloop; cbn [mbind result_bind mret
    result_ret fst snd]; [|discriminate].
  intros [= <- <-]. apply confirm_loop_adds in Hloop
    as (added & -> & Hsub & Hflag).
  exists added. cbn [app]. split; [done|]. split; [done|].
  intros Hf. by destruct (Hflag Hf) as (_ & ? & ?).
Qed.

Lemma refute_confirm_loop_adds details llm_doctests :
  forall i new flag new' flag',
    refute_confirm_loop details i llm_doctests new flag = Ok (new', flag') ->
    exists added,
      new' = new ++ added /\
      sublist (List.map fst added) (List.map fst llm_doctests) /\
      Forall (fun d =>
                In d llm_doctests \/
                exists (k : nat) d0 text,
                  llm_doctests !! k = Some d0 /\
                  details !! ("output_" +:+ pretty (i + k)%nat) = Some text /\
                  d = (fst d0, VStr text))
        added.
Proof.
  induction llm_doctests as [|d rest IH]; intros i new flag new' flag'.
  - cbn. intros [= <- <-]. exists []. by rewrite app_nil_r.
  - assert (forall added,
               Forall (fun d =>
                         In d rest \/
                         exists (k : nat) d0 text,
                           rest !! k = Some d0 /\
                           details !! ("output_" +:+ pretty (S i + k)%nat)
                           = Some text /\
                           d = (fst d0, VStr text)) added ->
               Forall (fun d1 =>
                         In d1 (d :: rest) \/
                         exists (k : nat) d0 text,
                           (d :: rest) !! k = Some d0 /\
                           details !! ("output_" +:+ pretty (i + k)%nat)
                           = Some text /\
                           d1 = (fst d0, VStr text)) added)
      as Hweak.
    { intros added Hadded. eapply Forall_impl; [exact Hadded|].
      intros d1 [?|(k & d0 & text & Hk & Htext & ->)]; [left; by right|].
      right. exists (S k), d0, text. split; [exact Hk|].
      split; [|done]. by replace (i + S k)%nat with (S i + k)%nat by lia. }
    cbn [refute_confirm_loop]. unfold getitem.
    destruct (details !! ("confirmation_" +:+ pretty i))
      as [confirmation|]; cbn [mbind result_bind]; [|discriminate].
    destruct (String.eqb confirmation "accept").
    + destruct (py_ne (snd d) (VStr "Error")); intros Hloop;
        apply IH in Hloop as (added & -> & Hsub & Hall).
      * exists (d :: added). rewrite <- app_assoc. split; [done|].
        split; [by apply sublist_skip|].
        constructor; [left; by left | by apply Hweak].
      * exists added. split; [done|]. split; [by apply sublist_cons|].
        by apply Hweak.
    + destruct (details !! ("output_" +:+ pretty i))
        as [output|] eqn:Houtput; cbn [mbind result_bind]; [|discriminate].
      destruct (negb (String.eqb output "Error")); intros Hloop;
        apply IH in Hloop as (added & -> & Hsub & Hall).
      * exists ((fst d, VStr output) :: added). rewrite <- app_assoc.
        split; [done|]. split; [by apply sublist_skip|].
        constructor; [|by apply Hweak].
        right. exists 0%nat, d, output. split; [done|].
        split; [|done]. by replace (i + 0)%nat with i by lia.
      * exists added. split; [done|]. split; [by apply sublist_cons|].
        by apply Hweak.
Qed.

(** X8.  Whenever [final_doctests] returns, the collection ends with the
    user's doctests followed by the old ones, and the cases before them
    have inputs of the model's doctests, in their order.  Each of these
    cases is one of the model's doctests, or pairs the input of the
    model's doctest at some position [k] with the text the user typed in
    the field [output_k], as a string: the text is not evaluated. *)
Theorem refute_collection_keeps_texts
    (doctests_details : gmap string string)
    (llm_doctests user_doctests old_doctests doctests : list doctest)
    (all_doctests_passed : bool) :
  final_doctests doctests_details llm_doctests user_doctests old_doctests
  = Ok (doctests, all_doctests_passed) ->
  exists new_doctests,
    doctests = new_doctests ++ user_doctests ++ old_doctests /\
    sublist (List.map fst new_doctests) (List.map fst llm_doctests) /\
    Forall (fun d =>
              In d llm_doctests \/
              exists (k : nat) d0 text,
                llm_doctests !! k = Some d0 /\
                doctests_details !! ("output_" +:+ pretty k) = Some text /\
                d = (fst d0, VStr text))
      new_doctests.
Proof.
  unfold final_doctests.
  destruct (refute_confirm_loop doctests_details 0 llm_doctests [] true)
    as [[new flag]|e] eqn:Hloop; cbn [mbind result_bind mret result_ret fst
    snd]; [|discriminate].
  intros [= <- <-]. apply refute_confirm_loop_adds in Hloop
    as (added & -> & Hsub & Hall).
  by exists added.
Qed.
End final_collections.

(** X7, on the seed collection and one accepted suggestion. *)
Lemma final_collection_witness :
  exists new_doctests,
    seed ++ [(VTuple [VInt 4; VInt 2], VInt 8)] = seed ++ new_doctests.
Proof.
  destruct (final_collection_extends_user_doctests (rt := demo_runtime)
              accept_first seed [(VTuple [VInt 4; VInt 2], VInt 8)]
              (seed ++ [(VTuple [VInt 4; VInt 2], VInt 8)]) "int" true
              eq_refl) as (new_doctests & Hnew & _).
  by exists new_doctests.
Defined.

(** X8, on a suggestion whose output the user replaces by the text [6]:
    the case is kept with the string, not the number. *)
Lemma refute_collection_witness :
  final_doctests override_first
    [(VTuple [VInt 2; VInt 3], VInt 5)] [] seed
  = Ok ((VTuple [VInt 2; VInt 3], VStr "6") :: seed, false) /\
  exists new_doctests,
    (VTuple [VInt 2; VInt 3], VStr "6") :: seed = new_doctests ++ [] ++ seed /\
    Forall (fun d =>
              In d [(VTuple [VInt 2; VInt 3], VInt 5)] \/
              exists (k : nat) d0 text,
                [(VTuple [VInt 2; VInt 3], VInt 5)] !! k = Some d0 /\
                override_first !! ("output_" +:+ pretty k) = Some text /\
                d = (fst d0, VStr text))
      new_doctests.
Proof.
  split; [reflexivity|].
  destruct (refute_collection_keeps_texts
              override_first [(VTuple [VInt 2; VInt 3], VInt 5)] [] seed
              ((VTuple [VInt 2; VInt 3], VStr "6") :: seed) false eq_refl)
    as (new_doctests & Hnew & _ & Hall).
  by exists new_doctests.
Defined.

(** ** Observed doctests and the executor *)

Section observed_doctests.
Context {rt : PyRuntime}.

Lemma suggested_doctests_defined inputs function_name function_code namespace :
  exec_code (Some function_code) = Some namespace ->
  suggested_doctests_list_generator inputs function_name function_code
  = Ok (List.map
          (fun x => (x, observed (match inputs with
                                  | [] => false
                                  | first :: _ => is_tuple first
                                  end) (namespace function_name) x))
          inputs).
Proof.
  intros He. unfold suggested_doctests_list_generator.
  destruct inputs as [|first rest]; [reflexivity|]. rewrite He.
  destruct (is_tuple first); cbn [negb]; by rewrite observe_loop.
Qed.

(** [output != expected] on an output compared with itself is false
    unless the output differs from itself, as [nan] does. *)
Lemma classify_observed spread func x :
  (forall v, invoke spread func x = Returned v -> py_eq v v = true) ->
  classify spread func (x, observed spread func x)
  = match invoke spread func x with
    | Returned _ => Pass
    | Raised msg => Errored msg
    end.
Proof.
  intros Hself. unfold classify, observed. cbn [fst snd].
  destruct (invoke spread func x) as [v|msg]; [|reflexivity].
  by rewrite (Hself v eq_refl).
Qed.


(** X10.  When the first suggestion is not a tuple, every suggested input
    is passed to the candidate as its one argument, the tuples that follow
    included: an input [(5,)] of the explorer, which stands for the call
    with the argument 5, is observed on the argument [(5,)]. *)
Theorem plain_first_suggestion_fixes_the_convention
    (user_doctests : list doctest) (first : value)
    (llm_doctests crosshair_doctests : list value)
    (function_name function_code : string) (namespace : namespace) :
  is_tuple first = false ->
  py_in first (List.map fst user_doctests) = false ->
  exec_code (Some function_code) = Some namespace ->
  let suggested_inputs :=
    suggested_doctest_inputs_generator user_doctests (first :: llm_doctests)
      crosshair_doctests [] in
  suggested_doctests_list_generator suggested_inputs function_name
    function_code
  = Ok (List.map
          (fun x => (x, observed false (namespace function_name) x))
          suggested_inputs) /\
  forall x,
    In x crosshair_doctests ->
    py_in x (List.map fst user_doctests) = false ->
    exists y,
      py_eq x y = true /\
      In (y, observed false (namespace function_name) y)
        (List.map
           (fun x => (x, observed false (namespace function_name) x))
           suggested_inputs).
Proof.
  intros Hplain Hnew He. cbn zeta.
  rewrite suggested_inputs_contract. unfold suggest_contract.
  set (ui := List.map fst user_doctests) in *.
  set (cands := List.concat [first :: llm_doctests; crosshair_doctests; []]).
  assert (emit_new ui [] cands
          = first :: emit_new ui [first]
                       (llm_doctests ++ crosshair_doctests ++ [] ++ []))
    as Hhead.
  { unfold cands. cbn [List.concat app emit_new]. by rewrite Hnew. }
  split.
  - rewrite (suggested_doctests_defined _ _ _ _ He), Hhead. by rewrite Hplain.
  - intros x Hx Hux.
    assert (py_in x (emit_new ui [] cands) = true) as Hc.
    { apply (emit_new_complete ui [] cands x); [|done].
      unfold cands. cbn [List.concat]. rewrite !in_app_iff. right. by left. }
    apply py_in_true in Hc as (y & Hy & Hxy).
    exists y. split; [done|]. apply List.in_map_iff. by exists y.
Qed.
End observed_doctests.


(** X10, on the one-argument candidate [same], a plain input of the model
    and an input [(5,)] of the explorer. *)
Lemma plain_first_suggestion_witness :
  suggested_doctests_list_generator (rt := demo_runtime)
    (suggested_doctest_inputs_generator [] [VInt 1] [VTuple [VInt 5]] [])
    "same" same_src
  = Ok [(VInt 1, VInt 1); (VTuple [VInt 5], VTuple [VInt 5])].
Proof.
  exact (proj1 (plain_first_suggestion_fixes_the_convention
                  (rt := demo_runtime) [] (VInt 1) [] [VTuple [VInt 5]]
                  "same" same_src (defines "same" same)
                  eq_refl eq_refl eq_refl)).
Defined.

(** ** More on reading the user's form *)

Section form_reading.
Context {rt : PyRuntime}.

Local Open Scope nat_scope.

Lemma eval_text_Ok text v : eval_text text = Ok v -> py_eval text = Evaluated v.
Proof. unfold eval_text. destruct (py_eval text); by intros [= <-]. Qed.

Lemma parse_loop_Ok function_details count : forall i doctests parsed,
  parse_loop function_details i count doctests = Ok parsed ->
  exists read,
    parsed = doctests ++ read /\
    length read = count /\
    forall k d, read !! k = Some d -> read_from function_details (i + k) d.
Proof.
  induction count as [|count IH]; intros i doctests parsed.
  - cbn. intros [= <-]. exists []. rewrite app_nil_r.
    repeat split. intros k d Hk. by rewrite lookup_nil in Hk.
  - cbn [parse_loop].
    destruct (getitem function_details (doctest_key i)) as [input_str|e]
      eqn:Ei; cbn [mbind result_bind]; [|discriminate].
    destruct (getitem function_details (output_key i)) as [output_str|e]
      eqn:Eo; cbn [mbind result_bind]; [|discriminate].
    destruct (eval_text input_str) as [input_val|e] eqn:E1;
      cbn [mbind result_bind]; [|discriminate].
    destruct (eval_text output_str) as [output_val|e] eqn:E2;
      cbn [mbind result_bind]; [|discriminate].
    intros Hloop. apply IH in Hloop as (read & -> & Hlen & Hread).
    exists ((input_val, output_val) :: read). rewrite <- app_assoc.
    split; [done|]. split; [cbn; lia|].
    intros [|k] d Hk.
    + cbn in Hk. injection Hk as <-. rewrite Nat.add_0_r.
      exists input_str, output_str.
      repeat split; auto using getitem_Ok, eval_text_Ok.
    + cbn in Hk. replace (i + S k) with (S i + k) by lia. by apply Hread.
Qed.

(** X11.  [user_doctests_generator] gives all the doctests or none.
    Whenever it returns, the count was present and readable, and the list
    is empty or has exactly as many doctests as the count says, the one at
    position [k] being the values of the fields [doctest_(k+1)] and
    [output_(k+1)]: one bad field discards the good ones too. *)
Theorem user_doctests_all_or_none
    (function_details : gmap string string) (doctests : list doctest) :
  user_doctests_generator function_details = Ok doctests ->
  exists text num_tests,
    function_details !! "number_of_doctests" = Some text /\
    py_int text = Some num_tests /\
    (doctests = [] \/
     (length doctests = Z.to_nat num_tests /\
      forall k d,
        doctests !! k = Some d -> read_from function_details (S k) d)).
Proof.
  unfold user_doctests_generator.
  destruct (getitem function_details "number_of_doctests") as [text|e]
    eqn:Hcount; cbn [mbind result_bind]; [|discriminate].
  apply getitem_Ok in Hcount.
  destruct (py_int text) as [num_tests|] eqn:Hint; [|discriminate].
  intros Hbody. exists text, num_tests. split; [done|]. split; [done|].
  unfold try_except_Exception in Hbody.
  destruct (parse_loop function_details 1 (Z.to_nat num_tests) [])
    as [parsed|e] eqn:Hloop.
  - injection Hbody as <-. right.
    apply parse_loop_Ok in Hloop as (read & -> & Hlen & Hread).
    split; [done|]. intros k d Hk. by apply (Hread k d).
  - left. destruct (is_Exception e); congruence.
Qed.

(** X12.  Handed the count as the integer the form's text stands for,
    [user_refute_doctests_generator] reads the form as
    [user_doctests_generator] does.  Handed the text itself, as a string,
    it returns the empty list whatever the form holds: building the range
    raises inside the [try]. *)
Theorem refute_doctests_need_an_integer_count
    (function_details : gmap string string) (text : string) (num_tests : Z) :
  function_details !! "number_of_doctests" = Some text ->
  py_int text = Some num_tests ->
  user_refute_doctests_generator function_details (VInt num_tests)
  = user_doctests_generator function_details /\
  user_refute_doctests_generator function_details (VStr text) = Ok [].
Proof.
  intros Hcount Hint. split; [|reflexivity].
  unfold user_refute_doctests_generator, user_doctests_generator, getitem.
  rewrite Hcount. cbn [mbind result_bind plus_one]. rewrite Hint.
  by rewrite Z.add_simpl_r.
Qed.

Lemma read_arguments_missing function_details count : forall i k,
  i <= k < i + count ->
  (forall j, i <= j < k -> is_Some (function_details !! argument_key j)) ->
  function_details !! argument_key k = None ->
  read_arguments function_details i count = Raise (KeyError (argument_key k)).
Proof.
  induction count as [|count IH]; intros i k Hk Hbefore Hmissing; [lia|].
  cbn [read_arguments]. unfold getitem.
  destruct (decide (k = i)) as [->|Hne].
  - by rewrite Hmissing.
  - destruct (Hbefore i ltac:(lia)) as [argument ->]. cbn [mbind result_bind].
    rewrite (IH (S i) k); [reflexivity | lia | | done].
    intros j Hj. apply Hbefore. lia.
Qed.

(** X13.  Unlike a bad doctest, a missing argument is not swallowed: with
    the function name and a readable count [n] present, the first absent
    field [argument_k], [1 <= k <= n], makes
    [function_signature_generator] raise the [KeyError] of that key. *)
Theorem signature_raises_on_missing_argument
    (function_details : gmap string string) (name text : string)
    (num_args : Z) (k : nat) :
  function_details !! "function_name" = Some name ->
  function_details !! "number_of_arguments" = Some text ->
  py_int text = Some num_args ->
  1 <= k <= Z.to_nat num_args ->
  (forall j, 1 <= j < k -> is_Some (function_details !! argument_key j)) ->
  function_details !! argument_key k = None ->
  function_signature_generator function_details
  = Raise (KeyError (argument_key k)).
Proof.
  intros Hname Hcount Hint Hk Hbefore Hmissing.
  unfold function_signature_generator, getitem.
  rewrite Hname, Hcount. cbn [mbind result_bind]. rewrite Hint.
  by rewrite (read_arguments_missing _ _ 1 k); [|lia| |].
Qed.
End form_reading.

(** X11, on a form with one well-formed doctest. *)
Lemma user_doctests_witness :
  exists text num_tests,
    form "1" "(2, 3)" "6" !! "number_of_doctests" = Some text /\
    demo_int text = Some num_tests.
Proof.
  destruct (user_doctests_all_or_none (rt := demo_runtime)
              (form "1" "(2, 3)" "6") seed eq_refl)
    as (text & num_tests & H1 & H2 & _).
  by exists text, num_tests.
Defined.

(** X12, on the same form. *)
Lemma refute_doctests_witness :
  user_refute_doctests_generator (rt := demo_runtime)
    (form "1" "(2, 3)" "6") (VStr "1")
  = Ok [].
Proof.
  exact (proj2 (refute_doctests_need_an_integer_count (rt := demo_runtime)
                  (form "1" "(2, 3)" "6") "1" 1%Z eq_refl eq_refl)).
Defined.

(** X13, on a form that announces two arguments and gives one. *)
Lemma signature_witness :
  function_signature_generator (rt := demo_runtime) signature_form
  = Raise (KeyError "argument_2").
Proof.
  refine (signature_raises_on_missing_argument (rt := demo_runtime)
            signature_form "multiply" "2" 2%Z 2%nat
            eq_refl eq_refl eq_refl _ _ eq_refl).
  - simpl. lia.
  - intros j Hj. assert (j = 1%nat) as -> by lia. by eexists.
Defined.

(** ** The helpers of the language-model interface *)

Lemma normalize_doctests_unwraps doctests :
  normalize_doctests doctests = List.map unwrap doctests.
Proof.
  unfold normalize_doctests.
  assert (forall normalized,
             fold_left
               (fun normalized d =>
                  match d with
                  | VTuple [x] => normalized ++ [x]
                  | _ => normalized ++ [d]
                  end) doctests normalized
             = normalized ++ List.map unwrap doctests) as Hloop.
  { induction doctests as [|d ds IH]; intros normalized.
    - cbn. by rewrite app_nil_r.
    - cbn [fold_left List.map]. rewrite IH.
      replace (normalized ++ unwrap d :: List.map unwrap ds)
        with ((normalized ++ [unwrap d]) ++ List.map unwrap ds)
        by (by rewrite <- app_assoc).
      f_equal. by destruct d as [| | | | [|x [|? ?]] |]. }
  apply (Hloop []).
Qed.

Lemma observed_unwrapped {rt : PyRuntime} func (l : list value) :
  Forall (fun x => exists y, x = VTuple [y]) l ->
  List.map (fun x => (x, observed false func x)) (List.map unwrap l)
  = List.map (fun d => (unwrap (fst d), snd d))
      (List.map (fun x => (x, observed true func x)) l).
Proof.
  induction 1 as [|x l [z ->] _ IH]; [reflexivity|].
  cbn [List.map fst snd unwrap]. by rewrite IH.
Qed.

(** X14.  [normalize_doctests] keeps the number and the order of the
    inputs and replaces each tuple of one element by that element.  On
    inputs that are all such tuples, the first not wrapping a tuple, the
    candidate is observed on the same arguments before and after: the
    suggested doctests differ only in the inputs being unwrapped. *)
Theorem normalized_inputs_are_observed_alike {rt : PyRuntime}
    (inputs : list value) (function_name function_code : string)
    (suggested : list doctest) :
  Forall (fun x => exists y, x = VTuple [y]) inputs ->
  (forall y rest, inputs = VTuple [y] :: rest -> is_tuple y = false) ->
  suggested_doctests_list_generator inputs function_name function_code
  = Ok suggested ->
  normalize_doctests inputs = List.map unwrap inputs /\
  length (normalize_doctests inputs) = length inputs /\
  suggested_doctests_list_generator (normalize_doctests inputs) function_name
    function_code
  = Ok (List.map (fun d => (unwrap (fst d), snd d)) suggested).
Proof.
  intros Hwrapped Hfirst Hgen. rewrite normalize_doctests_unwraps.
  split; [reflexivity|]. split; [apply length_map|].
  destruct inputs as [|first rest].
  { cbn in Hgen. by injection Hgen as <-. }
  destruct (exec_code (Some function_code)) as [namespace|] eqn:He.
  2:{ unfold suggested_doctests_list_generator in Hgen.
      rewrite He in Hgen. discriminate. }
  rewrite (suggested_doctests_defined _ _ _ _ He) in Hgen.
  injection Hgen as <-.
  rewrite (suggested_doctests_defined _ _ _ _ He).
  pose proof (Forall_inv Hwrapped) as [y ->].
  cbn [List.map unwrap is_tuple fst snd]. rewrite (Hfirst y rest eq_refl).
  f_equal. f_equal. apply Forall_inv_tail in Hwrapped.
  by apply observed_unwrapped.
Qed.

(** X14, on the inputs [(1,)] and [(2,)] of the one-argument [same]. *)
Lemma normalized_inputs_witness :
  suggested_doctests_list_generator (rt := demo_runtime)
    (normalize_doctests [VTuple [VInt 1]; VTuple [VInt 2]]) "same" same_src
  = Ok [(VInt 1, VInt 1); (VInt 2, VInt 2)].
Proof.
  refine (proj2 (proj2 (normalized_inputs_are_observed_alike
                          (rt := demo_runtime)
                          [VTuple [VInt 1]; VTuple [VInt 2]] "same" same_src
                          [(VTuple [VInt 1], VInt 1); (VTuple [VInt 2], VInt 2)]
                          _ _ eq_refl))).
  - repeat constructor; by eexists.
  - intros y rest [= <- _]. reflexivity.
Defined.

Lemma strip_comments_no_hash text : forall in_comment,
  occurs (ascii_of_nat 35) (strip_comments in_comment text) = false.
Proof.
  induction text as [|c rest IH]; intros in_comment; [reflexivity|].
  cbn [strip_comments]. unfold is_newline, is_hash.
  destruct (Ascii.eqb c (ascii_of_nat 10)) eqn:Hnl.
  - apply Ascii.eqb_eq in Hnl. subst c. cbn [occurs]. by rewrite IH.
  - destruct in_comment; [apply IH|].
    destruct (Ascii.eqb c (ascii_of_nat 35)) eqn:Hh; [apply IH|].
    cbn [occurs]. by rewrite Hh, IH.
Qed.

Lemma strip_comments_newlines text : forall in_comment,
  count_char (ascii_of_nat 10) (strip_comments in_comment text)
  = count_char (ascii_of_nat 10) text.
Proof.
  induction text as [|c rest IH]; intros in_comment; [reflexivity|].
  cbn [strip_comments count_char]. unfold is_newline, is_hash.
  destruct (Ascii.eqb c (ascii_of_nat 10)) eqn:Hnl.
  - cbn [count_char]. by rewrite Hnl, IH.
  - destruct in_comment; [by rewrite IH|].
    destruct (Ascii.eqb c (ascii_of_nat 35)); [by rewrite IH|].
    cbn [count_char]. by rewrite Hnl, IH.
Qed.

Lemma strip_comments_clean text :
  occurs (ascii_of_nat 35) text = false ->
  strip_comments false text = text.
Proof.
  induction text as [|c rest IH]; [reflexivity|].
  cbn [occurs strip_comments]. unfold is_newline, is_hash.
  intros [Hc Hrest]%orb_false_iff. rewrite Hc.
  destruct (Ascii.eqb c (ascii_of_nat 10)); by rewrite IH.
Qed.

(** X15.  [parse_doctest_inputs] evaluates the text with its comments
    removed: the text the evaluators see holds no [#], has the line breaks
    of the original, and is the original when that holds no [#].  Parsing
    a text and parsing it with the comments already removed give the
    same. *)
Theorem parse_doctest_inputs_ignores_comments
    (literal_eval : string -> option value)
    (restricted_eval : string -> eval_outcome) (text : string) :
  let cleaned := strip_comments false text in
  occurs (ascii_of_nat 35) cleaned = false /\
  count_char (ascii_of_nat 10) cleaned = count_char (ascii_of_nat 10) text /\
  (occurs (ascii_of_nat 35) text = false -> cleaned = text) /\
  parse_doctest_inputs literal_eval restricted_eval cleaned
  = parse_doctest_inputs literal_eval restricted_eval text.
Proof.
  cbn zeta. split; [apply strip_comments_no_hash|].
  split; [apply strip_comments_newlines|].
  split; [apply strip_comments_clean|].
  unfold parse_doctest_inputs.
  by rewrite (strip_comments_clean _ (strip_comments_no_hash text false)).
Qed.

(** X15, on a line with a comment. *)
Lemma parse_doctest_inputs_witness :
  strip_comments false "[(0, 0)]  # zero" = "[(0, 0)]  " /\
  strip_comments false "[(0, 0)]" = "[(0, 0)]".
Proof.
  split; [reflexivity|].
  exact (proj1 (proj2 (proj2 (parse_doctest_inputs_ignores_comments
                                demo_literal_eval demo_eval "[(0, 0)]")))
           eq_refl).
Defined.

Section retries.
Context {W R P : Type}.
Variable create : W -> P -> api_outcome R * W.

Local Open Scope nat_scope.

Lemma retry_loop_counts payload len : forall a st,
  let r := retry_loop create payload (seq a len) st in
  api_calls (snd r) <= api_calls st + len /\
  (fst r = Ok None ->
   api_calls (snd r) = api_calls st + len /\
   slept (snd r) = slept st ++ seq a len) /\
  (forall response,
      fst r = Ok (Some response) ->
      exists k,
        k < len /\
        api_calls (snd r) = api_calls st + S k /\
        slept (snd r) = slept st ++ seq a k).
Proof.
  induction len as [|len IH]; intros a st; cbn zeta.
  - cbn. rewrite app_nil_r. repeat split; try lia; try done.
  - cbn [seq retry_loop].
    destruct (create (retry_world st) payload) as [[response| | |] w'];
      cbn [fst snd api_calls slept].
    + split; [lia|]. split; [discriminate|].
      intros ? _. exists 0. cbn. rewrite app_nil_r. repeat split; lia.
    + match goal with
      | |- context [retry_loop _ _ _ ?st'] =>
          destruct (IH (S a) st') as (H1 & H2 & H3)
      end.
      cbn [api_calls slept] in *. split; [lia|]. split.
      * intros Hn. destruct (H2 Hn) as [-> ->].
        split; [lia|]. by rewrite <- app_assoc.
      * intros response Hr. destruct (H3 response Hr) as (k & Hk & -> & ->).
        exists (S k). split; [lia|]. split; [lia|].
        by rewrite <- app_assoc.
    + match goal with
      | |- context [retry_loop _ _ _ ?st'] =>
          destruct (IH (S a) st') as (H1 & H2 & H3)
      end.
      cbn [api_calls slept] in *. split; [lia|]. split.
      * intros Hn. destruct (H2 Hn) as [-> ->].
        split; [lia|]. by rewrite <- app_assoc.
      * intros response Hr. destruct (H3 response Hr) as (k & Hk & -> & ->).
        exists (S k). split; [lia|]. split; [lia|].
        by rewrite <- app_assoc.
    + split; [lia|]. split; discriminate.
Qed.

Lemma sum_of_delays len : forall a,
  2 * list_sum (seq a len) + len = len * (2 * a + len).
Proof.
  induction len as [|len IH]; intros a; [reflexivity|].
  specialize (IH (S a)). cbn [seq]. change (list_sum (a :: seq (S a) len))
    with (a + list_sum (seq (S a) len)). nia.
Qed.

(** X16.  [make_request_with_retries] calls the client at most [retries]
    times, and not at all when [retries] is not positive.  It gives up
    with [None] only after exactly [retries] calls, having slept after
    each of them, for [delay] times 1, 2, ..., [retries]: in total
    [delay * retries * (retries + 1) / 2].  When it returns a response it
    has slept only after the calls before the one that succeeded. *)
Theorem requests_are_retried_a_bounded_number_of_times
    (w : W) (payload : P) (retries : Z) :
  let r := make_request_with_retries create w payload retries in
  let n := Z.to_nat retries in
  api_calls (snd r) <= n /\
  (fst r = Ok None ->
   api_calls (snd r) = n /\
   slept (snd r) = seq 1 n /\
   2 * list_sum (slept (snd r)) = n * (n + 1)) /\
  (forall response,
      fst r = Ok (Some response) ->
      1 <= api_calls (snd r) /\
      slept (snd r) = seq 1 (api_calls (snd r) - 1)) /\
  ((retries <= 0)%Z ->
   fst r = Ok None /\ api_calls (snd r) = 0 /\ retry_world (snd r) = w).
Proof.
  cbn zeta. unfold make_request_with_retries.
  match goal with
  | |- context [retry_loop _ _ _ ?st] =>
      destruct (retry_loop_counts payload (Z.to_nat retries) 1 st)
        as (H1 & H2 & H3)
  end.
  cbn [api_calls slept app] in *.
  split; [lia|]. split; [|split].
  - intros Hn. destruct (H2 Hn) as [Hc Hs]. split; [lia|]. split; [done|].
    rewrite Hs. pose proof (sum_of_delays (Z.to_nat retries) 1). lia.
  - intros response Hr. destruct (H3 response Hr) as (k & Hk & Hc & Hs).
    split; [lia|]. rewrite Hs. f_equal. lia.
  - intros Hle. replace (Z.to_nat retries) with 0 by lia. by cbn.
Qed.
End retries.

(** X16, on a client that fails twice and three allowed attempts. *)
Lemma requests_witness :
  fst (make_request_with_retries flaky_client 2%nat "hello" 3)
  = Ok (Some "hello") /\
  slept (snd (make_request_with_retries flaky_client 2%nat "hello" 3))
  = [1%nat; 2%nat].
Proof.
  split; [reflexivity|].
  exact (proj2 (proj1 (proj2 (proj2
           (requests_are_retried_a_bounded_number_of_times flaky_client
              2%nat "hello" 3))) "hello" eq_refl)).
Defined.

Section syntax_loop_properties.
Context {W N : Type}.
Variable exec_in : N -> string -> bool * N.
Variable ask : W -> llm_reply * W.

Local Open Scope nat_scope.

Lemma syntax_loop_outcome fuel : forall st : syntax_state (W := W) (N := N),
  syntax_i st <= 3 ->
  4 <= fuel + syntax_i st ->
  length (tries st) = syntax_i st ->
  all_rejected (tries st) ->
  let r := syntax_loop exec_in ask fuel st in
  fst r <> StillLooping /\
  length (tries (snd r)) <= 3 /\
  (forall new_response,
      fst r = Acquired new_response ->
      exists earlier,
        tries (snd r)
        = earlier ++ [{| try_reply := Reply (Some new_response);
                         try_defined := true |}] /\
        all_rejected earlier) /\
  (fst r = GaveUp ->
   length (tries (snd r)) = 3 /\ all_rejected (tries (snd r))).
Proof.
  induction fuel as [|fuel IH]; intros st Hi Hfuel Hlen Hrej; [lia|].
  cbn zeta. cbn [syntax_loop].
  destruct (syntax_i st <? 3) eqn:Hlt;
    rewrite ?Nat.ltb_lt, ?Nat.ltb_ge in Hlt.
  2:{ cbn [fst snd]. assert (syntax_i st = 3) by lia.
      split; [discriminate|]. split; [lia|]. split; [discriminate|].
      intros _. split; [lia | done]. }
  assert (forall reply, all_rejected
            (tries st ++ [{| try_reply := reply; try_defined := false |}]))
    as Hrej'.
  { intros reply. apply Forall_app. split; [done|]. by repeat constructor. }
  destruct (ask (syntax_world st)) as [[[new_response|]|] w'].
  - destruct (exec_in (syntax_namespace st) new_response)
      as [[] namespace'].
    + cbn [fst snd tries]. split; [discriminate|].
      split; [rewrite length_app; cbn; lia|].
      split; [|discriminate].
      intros c [= <-]. by exists (tries st).
    + apply IH; cbn [syntax_i tries]; rewrite ?length_app; cbn [length];
        try lia; apply Hrej'.
  - apply IH; cbn [syntax_i tries]; rewrite ?length_app; cbn [length];
      try lia; apply Hrej'.
  - apply IH; cbn [syntax_i tries]; rewrite ?length_app; cbn [length];
      try lia; apply Hrej'.
Qed.
End syntax_loop_properties.

Section syntax_callers_properties.
Context {W N : Type}.
Variable exec_in : N -> string -> bool * N.
Variable empty_namespace : N.
Variable generate_function_code :
  string -> string -> list doctest -> W -> llm_reply * W.
Variable refute_code : string -> list doctest -> W -> llm_reply * W.

Local Open Scope nat_scope.

(** X17.  [check_syntax_errors] and [refute_code_errors] end after at
    most 3 requests to the model and never raise an [Exception].  They
    return a text only when it is the model's last answer and [exec]
    accepted it, every answer before it having been rejected; they return
    [None] only after exactly 3 rejected answers. *)
Theorem syntax_loops_ask_at_most_three_times
    (function_signature docstring function_code : string)
    (doctests : list doctest) (w : W) :
  let outcome_of (r : acquired * syntax_state (W := W) (N := N)) :=
    fst r <> StillLooping /\
    length (tries (snd r)) <= 3 /\
    (forall new_response,
        fst r = Acquired new_response ->
        exists earlier,
          tries (snd r)
          = earlier ++ [{| try_reply := Reply (Some new_response);
                           try_defined := true |}] /\
          all_rejected earlier) /\
    (fst r = GaveUp ->
     length (tries (snd r)) = 3 /\ all_rejected (tries (snd r))) in
  outcome_of
    (check_syntax_errors exec_in empty_namespace generate_function_code
       function_signature docstring doctests w) /\
  outcome_of
    (refute_code_errors exec_in empty_namespace refute_code function_code
       doctests w).
Proof.
  cbn zeta. unfold check_syntax_errors, refute_code_errors, syntax_acquire.
  split; apply syntax_loop_outcome; cbn [syntax_i tries length]; try lia;
    constructor.
Qed.
End syntax_callers_properties.

(** X17, on a model whose second answer executes. *)
Lemma syntax_loops_witness :
  fst (check_syntax_errors demo_exec_in tt (fun _ _ _ => scripted_ask)
         "def multiply(a: int, b: int) -> int:" "multiplies" seed
         [None; Some multiply_times_src])
  = Acquired multiply_times_src /\
  exists earlier,
    tries (snd (check_syntax_errors demo_exec_in tt (fun _ _ _ => scripted_ask)
                  "def multiply(a: int, b: int) -> int:" "multiplies" seed
                  [None; Some multiply_times_src]))
    = earlier ++ [{| try_reply := Reply (Some multiply_times_src);
                     try_defined := true |}].
Proof.
  split; [reflexivity|].
  destruct (proj1 (proj2 (proj2 (proj1
             (syntax_loops_ask_at_most_three_times demo_exec_in tt
                (fun _ _ _ => scripted_ask) (fun _ _ => scripted_ask)
                "def multiply(a: int, b: int) -> int:" "multiplies" "" seed
                [None; Some multiply_times_src]))))
             multiply_times_src eq_refl) as (earlier & Hearlier & _).
  by exists earlier.
Defined.

Section files_properties.
Variable writable : string -> bool.

(** X18.  [Create_File] never overwrites.  When it returns, the name is
    the function name followed by [.py], a file of that name exists, the
    other files are as before, and a file that was already there keeps
    its content.  A second call for the same function, with whatever new
    code, changes nothing: the file keeps what it held. *)
Theorem created_file_is_never_overwritten
    (programs programs' : gmap string string)
    (function_name function_code file_name : string) :
  Create_File writable programs function_name function_code
  = Ok (file_name, programs') ->
  file_name = function_name +:+ ".py" /\
  is_Some (programs' !! file_name) /\
  (forall other, other <> file_name -> programs' !! other = programs !! other) /\
  (forall old, programs !! file_name = Some old -> programs' = programs) /\
  (forall newer,
      Create_File writable programs' function_name newer
      = Ok (file_name, programs')).
Proof.
  unfold Create_File.
  destruct (programs !! (function_name +:+ ".py")) as [old|] eqn:Hfile.
  - intros [= <- <-]. rewrite Hfile. repeat split; eauto.
  - destruct (writable (function_name +:+ ".py")); [|discriminate].
    intros [= <- <-]. rewrite lookup_insert_eq.
    repeat split; eauto.
    + intros other Hother. by rewrite lookup_insert_ne.
    + congruence.
Qed.
End files_properties.

(** X18, on an empty folder: the code written first stays. *)
Lemma created_file_witness :
  Create_File (fun _ => true)
    (<["multiply.py" := multiply_plus_src]> ∅) "multiply" multiply_times_src
  = Ok ("multiply.py", <["multiply.py" := multiply_plus_src]> ∅).
Proof.
  exact (proj2 (proj2 (proj2 (proj2
           (created_file_is_never_overwritten (fun _ => true) ∅
              (<["multiply.py" := multiply_plus_src]> ∅)
              "multiply" multiply_plus_src "multiply.py" eq_refl))))
           multiply_times_src).
Defined.

Section crosshair_properties.
Variable installed : option bool.
Variable file_exists : string -> bool.
Variable run_cover : string -> option (Z * string).
Variable findall : string -> list (string * string).
Variable literal_eval : string -> option value.

Lemma crosshair_loop_tuples matches : forall collected inputs,
  crosshair_loop literal_eval matches collected = Some inputs ->
  Forall (fun x => is_tuple x = true) collected ->
  Forall (fun x => is_tuple x = true) inputs /\
  length inputs = (length collected + length matches)%nat.
Proof.
  induction matches as [|m rest IH]; intros collected inputs.
  - cbn. intros [= <-] Hc. split; [done | lia].
  - cbn [crosshair_loop].
    destruct (eval_pieces literal_eval (split_comma_space (snd m) EmptyString))
      as [pieces|]; [|discriminate].
    intros Hloop Hc. apply IH in Hloop as [Hall Hlen].
    + split; [done|]. rewrite length_app in Hlen. cbn in *. lia.
    + apply Forall_app. split; [done|]. by repeat constructor.
Qed.

(** X19.  Every input [generate_doctest_CrossHair] returns is a tuple,
    whatever the number of arguments of the function.  It returns inputs
    only when the tool is installed and the file exists, and inputs that
    are not empty only when the tool ended with the return code 0; every
    match in its output has then become one input: one argument that
    does not read as a literal discards them all. *)
Theorem crosshair_inputs_are_tuples
    (file_name : string) (CrossHair_Inputs : list value) :
  generate_doctest_CrossHair installed file_exists run_cover findall
    literal_eval file_name
  = Inputs CrossHair_Inputs ->
  Forall (fun x => is_tuple x = true) CrossHair_Inputs /\
  installed = Some true /\
  file_exists file_name = true /\
  (CrossHair_Inputs <> [] ->
   exists stdout,
     run_cover file_name = Some (0%Z, stdout) /\
     length CrossHair_Inputs = length (findall stdout)).
Proof.
  unfold generate_doctest_CrossHair.
  destruct installed as [[]|]; [|discriminate..].
  destruct (file_exists file_name); cbn [negb]; [|discriminate].
  destruct (run_cover file_name) as [[returncode stdout]|].
  2:{ intros [= <-]. by repeat split. }
  destruct (returncode =? 0)%Z eqn:Hcode; cbn [negb].
  2:{ intros [= <-]. by repeat split. }
  apply Z.eqb_eq in Hcode. subst returncode.
  destruct (crosshair_loop literal_eval (findall stdout) []) as [inputs|]
    eqn:Hloop.
  2:{ intros [= <-]. by repeat split. }
  intros [= <-]. apply crosshair_loop_tuples in Hloop as [Hall Hlen];
    [|constructor].
  split; [done|]. split; [done|]. split; [done|].
  intros _. by exists stdout.
Qed.
End crosshair_properties.

(** X19, on a run that reports the calls [divide(0, 0)] and
    [divide(0, -1)]. *)
Lemma crosshair_inputs_witness :
  generate_doctest_CrossHair (Some true) (fun _ => true)
    (fun _ => Some (0%Z, "divide(0, 0) divide(0, -1)")) demo_findall
    demo_literal_eval "divide.py"
  = Inputs [VTuple [VInt 0; VInt 0]; VTuple [VInt 0; VInt (-1)]] /\
  Forall (fun x => is_tuple x = true)
    [VTuple [VInt 0; VInt 0]; VTuple [VInt 0; VInt (-1)]].
Proof.
  split; [reflexivity|].
  exact (proj1 (crosshair_inputs_are_tuples (Some true) (fun _ => true)
                  (fun _ => Some (0%Z, "divide(0, 0) divide(0, -1)"))
                  demo_findall demo_literal_eval "divide.py"
                  [VTuple [VInt 0; VInt 0]; VTuple [VInt 0; VInt (-1)]]
                  eq_refl)).
Defined.

(** ** The least failing candidate *)

Lemma fold_min_le rest : forall v,
  (fold_left Nat.min rest v <= v)%nat /\
  (forall x, In x rest -> (fold_left Nat.min rest v <= x)%nat) /\
  (fold_left Nat.min rest v = v \/ In (fold_left Nat.min rest v) rest).
Proof.
  induction rest as [|y rest IH]; intros v.
  - cbn. split; [lia|]. split; [intros x Hx; destruct Hx | by left].
  - cbn [fold_left]. destruct (IH (Nat.min v y)) as (H1 & H2 & H3).
    split; [lia|]. split.
    + intros x Hx. destruct Hx as [Hx|Hx]; [subst x; lia | by apply H2].
    + destruct H3 as [H3|H3]; [|right; by right].
      destruct (Nat.min_spec v y) as [[_ Hm]|[_ Hm]]; rewrite Hm in *.
      * by left.
      * right. left. congruence.
Qed.

(** X20.  From a ledger that is not empty the route picks a candidate of
    the ledger that fails the fewest cases: no candidate of the ledger has
    a smaller count, and among those with that count it is the first in
    the order of the dictionary. *)
Theorem min_key_fails_the_fewest_cases
    (items : list (option string * nat)) :
  items <> [] ->
  exists key n before after,
    min_key items = Some key /\
    items = before ++ (key, n) :: after /\
    (forall item, In item items -> (n <= snd item)%nat) /\
    (forall item, In item before -> (n < snd item)%nat).
Proof.
  intros Hne. unfold min_key, min_value.
  destruct items as [|[key0 n0] rest]; [done|]. cbn [List.map snd].
  set (least := fold_left Nat.min (List.map snd rest) n0).
  destruct (fold_min_le (List.map snd rest) n0) as (Hle0 & Hle & Hin).
  fold least in Hle0, Hle, Hin.
  assert (forall item, In item ((key0, n0) :: rest) ->
                       (least <= snd item)%nat) as Hall.
  { intros item [<-|Hitem]; [done|]. apply Hle.
    apply List.in_map_iff. by exists item. }
  assert (exists item, In item ((key0, n0) :: rest) /\ snd item = least)
    as (item & Hitem & Hsnd).
  { destruct Hin as [Hin|Hin].
    - exists (key0, n0). split; [by left | done].
    - apply List.in_map_iff in Hin as (item & Hs & Hi).
      exists item. split; [by right | done]. }
  revert Hall Hitem. generalize ((key0, n0) :: rest) as l.
  induction l as [|[k n] l IH]; intros Hall Hitem; [destruct Hitem|].
  cbn [List.find snd]. destruct (n =? least)%nat eqn:Hn.
  - apply Nat.eqb_eq in Hn. subst n.
    exists k, least, [], l. repeat split; done.
  - apply Nat.eqb_neq in Hn.
    destruct IH as (key & m & before & after & Hfind & -> & Hmin & Hbefore).
    + intros it Hit. apply Hall. by right.
    + destruct Hitem as [<-|Hitem]; [cbn in Hsnd; congruence | done].
    + destruct (List.find (fun item => (snd item =? least)%nat)
                  (before ++ (key, m) :: after)) as [found|] eqn:Hf;
        [|discriminate].
      injection Hfind as <-.
      apply List.find_some in Hf as [Hfin Hfeq]. apply Nat.eqb_eq in Hfeq.
      assert (m = least) as ->.
      { pose proof (Hmin found Hfin) as H1.
        pose proof (Hall (fst found, m)) as H2. cbn in H2.
        assert (least <= m)%nat
          by (apply H2; right; apply in_app_iff; right; by left).
        lia. }
      exists (fst found), least, ((k, n) :: before), after.
      split; [done|]. split; [done|]. split.
      * intros it [<-|Hit]; [|by apply Hmin]. cbn.
        specialize (Hall (k, n) (or_introl eq_refl)). cbn in Hall. lia.
      * intros it [<-|Hit]; [|by apply Hbefore]. cbn.
        specialize (Hall (k, n) (or_introl eq_refl)). cbn in Hall. lia.
Qed.

(** X20, on a ledger of three candidates. *)
Lemma min_key_witness :
  min_key [(Some "a", 2%nat); (Some "b", 1%nat); (Some "c", 1%nat)]
  = Some (Some "b").
Proof.
  destruct (min_key_fails_the_fewest_cases
              [(Some "a", 2%nat); (Some "b", 1%nat); (Some "c", 1%nat)])
    as (key & n & before & after & Hkey & _); [discriminate|].
  reflexivity.
Defined.
